(** * Media ingestion pipeline of the file-storage server (Go)

    A shallow embedding of [handler_upload_video.go] (the current video
    handler), the read-path signer [dbVideoToSignedVideo] and the two
    file-writing variants of [handlerUploadThumbnail].

    Calls to the outside world (JWT validation, the metadata store, the
    multipart parser, the file system, ffprobe/ffmpeg, crypto/rand, S3) are
    read from an explicit environment [Env] that fixes their outcomes; the
    handlers thread a [World] (files on disk, S3 objects, metadata rows and a
    log of side effects) and a stack of deferred calls, as Go does. *)

From Stdlib Require Import ZArith Lia Ascii String List Bool.
From Stdlib Require Import PrimFloat Uint63.
From Stdlib Require Floats Reals Lra.
From stdpp Require Import base gmap strings.

Import ListNotations.
Open Scope string_scope.
Open Scope Z_scope.

(* ================================================================== *)
(** ** Aspect classification ([getVideoAspectRatio], lines 67-80)      *)
(* ================================================================== *)

(** Go's [float64(x)] on an [int] (64-bit): correctly rounded.  The
    primitive conversion works on 63-bit unsigned integers, so the sign is
    split off; [-2^63] is the one value whose magnitude needs 64 bits. *)
Definition float64_of_int (z : Z) : float :=
  if z =? - 2 ^ 63 then (- (of_uint63 (Uint63.of_Z (2 ^ 62)) * 2))%float
  else if z <? 0 then (- of_uint63 (Uint63.of_Z (- z)))%float
  else of_uint63 (Uint63.of_Z z).

(** [math.Abs] *)
Definition go_abs (x : float) : float := PrimFloat.abs x.

(** The untyped constants [16.0 / 9.0], [9.0 / 16.0] and [0.05], each
    rounded once to float64 when it becomes a float64 value. *)
Definition landscapeTarget : float := (16 / 9)%float.
Definition portraitTarget : float := (9 / 16)%float.
Definition tolerance : float := 0x1.999999999999ap-5%float. (* 0.05 *)

(** The [switch] on the ratio, float64 arithmetic throughout. *)
Definition classify (width height : Z) : string :=
  let ratio := (float64_of_int width / float64_of_int height)%float in
  if (go_abs (ratio - landscapeTarget) <=? landscapeTarget * tolerance)%float
  then "landscape"
  else if (go_abs (ratio - portraitTarget) <=? portraitTarget * tolerance)%float
  then "portrait"
  else "other".

(** The same classification read in exact rational arithmetic, as the
    spec's formula [|w/h - t| <= t * 0.05] states it (comparison object,
    not code): with [t = p/q] and [h > 0],
    [|w/h - p/q| <= (p/q)/20] iff [20 |w q - p h| <= p h]. *)
Definition in_band_exact (width height p q : Z) : bool :=
  20 * Z.abs (width * q - p * height) <=? p * height.

Definition classify_exact (width height : Z) : string :=
  if in_band_exact width height 16 9 then "landscape"
  else if in_band_exact width height 9 16 then "portrait"
  else "other".

(* ================================================================== *)
(** ** Probing ([getVideoAspectRatio], lines 36-65)                    *)
(* ================================================================== *)

(** One element of [ffprobeOutput.Streams]; JSON fields that are absent
    decode to Go's zero values. *)
Record stream := mk_stream {
  CodecType : string;
  Width : Z;
  Height : Z
}.

(** What running ffprobe and [json.Unmarshal] yield. *)
Inductive probe_out :=
| ProbeToolFailure                (* cmd.Run() returned an error *)
| ProbeParseFailure               (* json.Unmarshal returned an error *)
| ProbeStreams (l : list stream). (* the parsed [Streams] slice *)

(** The loop of lines 54-61: [width, height] start at 0, the first stream
    whose codec type is "video" sets them, then [break]. *)
Fixpoint first_video_dims (l : list stream) : Z * Z :=
  match l with
  | [] => (0, 0)
  | s :: rest =>
      if String.eqb (CodecType s) "video" then (Width s, Height s)
      else first_video_dims rest
  end.

Inductive probe_error :=
| ErrToolFailure
| ErrParseFailure
| ErrNoVideoStream.

(** The geometry part of [getVideoAspectRatio] (lines 44-65). *)
Definition probe_dims (p : probe_out) : (Z * Z) + probe_error :=
  match p with
  | ProbeToolFailure => inr ErrToolFailure
  | ProbeParseFailure => inr ErrParseFailure
  | ProbeStreams l =>
      let '(width, height) := first_video_dims l in
      if (width =? 0) || (height =? 0) then inr ErrNoVideoStream
      else inl (width, height)
  end.

(** [getVideoAspectRatio] as a whole. *)
Definition getVideoAspectRatio (p : probe_out) : string + probe_error :=
  match probe_dims p with
  | inr e => inr e
  | inl (width, height) => inl (classify width height)
  end.


(* ================================================================== *)
(** ** [base64.RawURLEncoding.EncodeToString]                          *)
(* ================================================================== *)

(** [encodeURL], the alphabet of the URL-safe encoding. *)
Definition encodeURL : string :=
  "ABCDEFGHIJKLMNOPQRSTUVWXYZabcdefghijklmnopqrstuvwxyz0123456789-_".

Definition enc (i : Z) : ascii :=
  match String.get (Z.to_nat i) encodeURL with Some c => c | None => "A"%char end.

(** [Encoding.Encode] with [padChar = NoPadding]: each full group of three
    bytes is packed into [val] and cut into four 6-bit indices; a trailing
    group of one or two bytes yields two or three characters. *)
Fixpoint encode_raw_url (src : list Z) : list ascii :=
  match src with
  | b0 :: b1 :: b2 :: rest =>
      let val := Z.lor (Z.lor (Z.shiftl b0 16) (Z.shiftl b1 8)) b2 in
      enc (Z.land (Z.shiftr val 18) 63) :: enc (Z.land (Z.shiftr val 12) 63)
        :: enc (Z.land (Z.shiftr val 6) 63) :: enc (Z.land val 63)
        :: encode_raw_url rest
  | [b0; b1] =>
      let val := Z.lor (Z.shiftl b0 16) (Z.shiftl b1 8) in
      [enc (Z.land (Z.shiftr val 18) 63); enc (Z.land (Z.shiftr val 12) 63);
       enc (Z.land (Z.shiftr val 6) 63)]
  | [b0] =>
      let val := Z.shiftl b0 16 in
      [enc (Z.land (Z.shiftr val 18) 63); enc (Z.land (Z.shiftr val 12) 63)]
  | [] => []
  end.

Definition EncodeToString (src : list Z) : string := string_of_list_ascii (encode_raw_url src).

Definition is_byte (b : Z) : Prop := 0 <= b < 256.

(** Proof device: the position of a character in the alphabet, and the
    inverse of one group. *)
Fixpoint index_in (c : ascii) (s : string) (i : Z) : Z :=
  match s with
  | EmptyString => 64
  | String d s' => if Ascii.eqb c d then i else index_in c s' (i + 1)
  end.

Definition dec (c : ascii) : Z := index_in c encodeURL 0.

Fixpoint decode_raw_url (cs : list ascii) : list Z :=
  match cs with
  | c0 :: c1 :: c2 :: c3 :: rest =>
      let s0 := dec c0 in let s1 := dec c1 in let s2 := dec c2 in let s3 := dec c3 in
      Z.lor (Z.shiftl s0 2) (Z.shiftr s1 4)
        :: Z.lor (Z.shiftl (Z.land s1 15) 4) (Z.shiftr s2 2)
        :: Z.lor (Z.shiftl (Z.land s2 3) 6) s3 :: decode_raw_url rest
  | [c0; c1; c2] =>
      let s0 := dec c0 in let s1 := dec c1 in let s2 := dec c2 in
      [Z.lor (Z.shiftl s0 2) (Z.shiftr s1 4);
       Z.lor (Z.shiftl (Z.land s1 15) 4) (Z.shiftr s2 2)]
  | [c0; c1] =>
      let s0 := dec c0 in let s1 := dec c1 in
      [Z.lor (Z.shiftl s0 2) (Z.shiftr s1 4)]
  | _ => []
  end.

Lemma dec_enc_all :
  forallb (fun n => Z.eqb (dec (enc (Z.of_nat n))) (Z.of_nat n)) (seq 0 64) = true.
Proof. vm_compute. reflexivity. Qed.

Lemma dec_enc (i : Z) : 0 <= i < 64 -> dec (enc i) = i.
Proof.
  intros Hi.
  pose proof dec_enc_all as H. rewrite forallb_forall in H.
  specialize (H (Z.to_nat i)). rewrite Z2Nat.id in H by lia.
  apply Z.eqb_eq, H, in_seq. lia.
Qed.

Lemma land63_range (x : Z) : 0 <= Z.land x 63 < 64.
Proof.
  change 63 with (Z.ones 6). rewrite Z.land_ones by lia.
  apply Z.mod_pos_bound. lia.
Qed.

Lemma land_mul_pow2_low (a b k : Z) :
  0 <= k -> 0 <= b < 2 ^ k -> Z.land (a * 2 ^ k) b = 0.
Proof.
  intros Hk Hb. apply Z.bits_inj'. intros i Hi.
  rewrite Z.land_spec, Z.bits_0.
  destruct (Z.lt_ge_cases i k) as [Hik | Hik].
  - rewrite Z.mul_pow2_bits_low by lia. reflexivity.
  - replace (Z.testbit b i) with false; [apply andb_false_r |].
    symmetry. apply Z.testbit_false; [lia |].
    rewrite Z.div_small; [reflexivity |].
    split; [lia |]. apply Z.lt_le_trans with (2 ^ k); [lia |].
    apply Z.pow_le_mono_r; lia.
Qed.

Lemma lor_mul_pow2 (a b k : Z) :
  0 <= k -> 0 <= b < 2 ^ k -> Z.lor (a * 2 ^ k) b = a * 2 ^ k + b.
Proof.
  intros Hk Hb. pose proof (land_mul_pow2_low a b k Hk Hb) as H0.
  rewrite <- (Z.lxor_lor _ _ H0). symmetry. apply Z.add_nocarry_lxor. exact H0.
Qed.

Lemma land_ones_mod (x k : Z) : 0 <= k -> Z.land x (2 ^ k - 1) = x mod 2 ^ k.
Proof.
  intros Hk. replace (2 ^ k - 1) with (Z.ones k) by (rewrite Z.ones_equiv; lia).
  apply Z.land_ones. exact Hk.
Qed.

Lemma group3_inv (b0 b1 b2 : Z) :
  is_byte b0 -> is_byte b1 -> is_byte b2 ->
  let val := Z.lor (Z.lor (Z.shiftl b0 16) (Z.shiftl b1 8)) b2 in
  let s0 := Z.land (Z.shiftr val 18) 63 in
  let s1 := Z.land (Z.shiftr val 12) 63 in
  let s2 := Z.land (Z.shiftr val 6) 63 in
  let s3 := Z.land val 63 in
  Z.lor (Z.shiftl s0 2) (Z.shiftr s1 4) = b0 /\
  Z.lor (Z.shiftl (Z.land s1 15) 4) (Z.shiftr s2 2) = b1 /\
  Z.lor (Z.shiftl (Z.land s2 3) 6) s3 = b2.
Proof.
  unfold is_byte. intros H0 H1 H2.
  assert (Hv : Z.lor (Z.lor (Z.shiftl b0 16) (Z.shiftl b1 8)) b2
               = b0 * 2 ^ 16 + b1 * 2 ^ 8 + b2).
  { rewrite !Z.shiftl_mul_pow2 by lia.
    rewrite lor_mul_pow2 by (simpl; lia).
    replace (b0 * 2 ^ 16 + b1 * 2 ^ 8) with ((b0 * 2 ^ 8 + b1) * 2 ^ 8) by ring.
    rewrite lor_mul_pow2 by (simpl; lia). reflexivity. }
  rewrite Hv. clear Hv.
  change 63 with (2 ^ 6 - 1). change 15 with (2 ^ 4 - 1). change 3 with (2 ^ 2 - 1).
  rewrite !land_ones_mod, !Z.shiftr_div_pow2, !Z.shiftl_mul_pow2 by lia.
  rewrite !lor_mul_pow2.
  all: simpl Z.pow in *.
  all: try (Z.div_mod_to_equations; lia).
Qed.

Lemma group2_inv (b0 b1 : Z) :
  is_byte b0 -> is_byte b1 ->
  Z.lor (Z.shiftl (Z.land (Z.shiftr (Z.lor (Z.shiftl b0 16) (Z.shiftl b1 8)) 18) 63) 2)
        (Z.shiftr (Z.land (Z.shiftr (Z.lor (Z.shiftl b0 16) (Z.shiftl b1 8)) 12) 63) 4) = b0 /\
  Z.lor (Z.shiftl (Z.land (Z.land (Z.shiftr (Z.lor (Z.shiftl b0 16) (Z.shiftl b1 8)) 12) 63) 15) 4)
        (Z.shiftr (Z.land (Z.shiftr (Z.lor (Z.shiftl b0 16) (Z.shiftl b1 8)) 6) 63) 2) = b1.
Proof.
  unfold is_byte. intros H0 H1.
  assert (Hv : Z.lor (Z.shiftl b0 16) (Z.shiftl b1 8) = b0 * 2 ^ 16 + b1 * 2 ^ 8).
  { rewrite !Z.shiftl_mul_pow2 by lia. apply lor_mul_pow2; simpl; lia. }
  rewrite Hv. clear Hv.
  change 63 with (2 ^ 6 - 1). change 15 with (2 ^ 4 - 1).
  rewrite !land_ones_mod, !Z.shiftr_div_pow2, !Z.shiftl_mul_pow2 by lia.
  rewrite !lor_mul_pow2.
  all: simpl Z.pow in *.
  all: try (Z.div_mod_to_equations; lia).
Qed.

Lemma group1_inv (b0 : Z) :
  is_byte b0 ->
  Z.lor (Z.shiftl (Z.land (Z.shiftr (Z.shiftl b0 16) 18) 63) 2)
        (Z.shiftr (Z.land (Z.shiftr (Z.shiftl b0 16) 12) 63) 4) = b0.
Proof.
  unfold is_byte. intros H0.
  change 63 with (2 ^ 6 - 1).
  rewrite !land_ones_mod, !Z.shiftr_div_pow2, !Z.shiftl_mul_pow2 by lia.
  rewrite !lor_mul_pow2.
  all: simpl Z.pow in *.
  all: try (Z.div_mod_to_equations; lia).
Qed.

Lemma dec_enc_land (x : Z) : dec (enc (Z.land x 63)) = Z.land x 63.
Proof. apply dec_enc, land63_range. Qed.

Lemma decode_encode_raw_url (src : list Z) :
  Forall is_byte src -> decode_raw_url (encode_raw_url src) = src.
Proof.
  intros Hall.
  remember (length src) as n eqn:Hn.
  revert src Hn Hall. induction n as [n IH] using lt_wf_ind.
  intros src Hn Hall.
  destruct src as [|b0 [|b1 [|b2 rest]]].
  - reflexivity.
  - inversion Hall; subst. simpl. rewrite !dec_enc_land. f_equal. apply group1_inv; assumption.
  - inversion Hall as [|? ? Hb0 Hall1]; subst. inversion Hall1; subst.
    simpl. rewrite !dec_enc_land. destruct (group2_inv b0 b1) as [E0 E1]; try assumption.
    rewrite E0, E1. reflexivity.
  - inversion Hall as [|? ? Hb0 Hall1]; subst. inversion Hall1 as [|? ? Hb1 Hall2]; subst.
    inversion Hall2 as [|? ? Hb2 Hall3]; subst.
    change (encode_raw_url (b0 :: b1 :: b2 :: rest)) with
      (let val := Z.lor (Z.lor (Z.shiftl b0 16) (Z.shiftl b1 8)) b2 in
       enc (Z.land (Z.shiftr val 18) 63) :: enc (Z.land (Z.shiftr val 12) 63)
         :: enc (Z.land (Z.shiftr val 6) 63) :: enc (Z.land val 63)
         :: encode_raw_url rest).
    cbv zeta. cbn [decode_raw_url]. rewrite !dec_enc_land.
    destruct (group3_inv b0 b1 b2 Hb0 Hb1 Hb2) as [E0 [E1 E2]].
    rewrite E0, E1, E2. f_equal; f_equal; f_equal.
    apply (IH (length rest)); [simpl; lia | reflexivity | assumption].
Qed.

Lemma encode_raw_url_inj (a b : list Z) :
  Forall is_byte a -> Forall is_byte b ->
  encode_raw_url a = encode_raw_url b -> a = b.
Proof.
  intros Ha Hb E.
  rewrite <- (decode_encode_raw_url a Ha), <- (decode_encode_raw_url b Hb), E.
  reflexivity.
Qed.

Lemma encode_raw_url_length_32 (src : list Z) :
  length src = 32%nat -> length (encode_raw_url src) = 43%nat.
Proof.
  intros Hlen.
  do 32 (destruct src as [|? src]; [discriminate |]).
  destruct src; [reflexivity | discriminate].
Qed.

(** Membership in the URL-safe alphabet. *)
Definition url_char (c : ascii) : bool :=
  existsb (Ascii.eqb c) (list_ascii_of_string encodeURL).

Lemma url_char_enc_all :
  forallb (fun n => url_char (enc (Z.of_nat n))) (seq 0 64) = true.
Proof. vm_compute. reflexivity. Qed.

Lemma url_char_enc_land (x : Z) : url_char (enc (Z.land x 63)) = true.
Proof.
  pose proof (land63_range x) as Hr.
  pose proof url_char_enc_all as H. rewrite forallb_forall in H.
  specialize (H (Z.to_nat (Z.land x 63))). rewrite Z2Nat.id in H by lia.
  apply H, in_seq. lia.
Qed.

Lemma encode_raw_url_chars (src : list Z) :
  Forall (fun c => url_char c = true) (encode_raw_url src).
Proof.
  remember (length src) as n eqn:Hn.
  revert src Hn. induction n as [n IH] using lt_wf_ind. intros src Hn.
  destruct src as [|b0 [|b1 [|b2 rest]]]; cbn [encode_raw_url];
    repeat constructor; try apply url_char_enc_land.
  apply (IH (length rest)); [subst n; simpl; lia | reflexivity].
Qed.

(* ================================================================== *)
(** ** Records, side effects and the handler monad                     *)
(* ================================================================== *)

(** [database.Video], with the fields the handlers read and write. *)
Record Video := mk_video {
  ID : string;
  UserID : string;
  ThumbnailURL : option string;
  VideoURL : option string
}.

Definition with_video_url (v : Video) (u : option string) : Video :=
  mk_video (ID v) (UserID v) (ThumbnailURL v) u.

Definition with_thumbnail_url (v : Video) (u : option string) : Video :=
  mk_video (ID v) (UserID v) u (VideoURL v).

(** Observable effects, in the order they happen. *)
Inductive Event :=
| EGetVideo (id : string)                (* cfg.db.GetVideo *)
| ECreate (path : string)                (* os.CreateTemp / os.Create *)
| EWrite (path : string)                 (* io.Copy into a file, completed *)
| ERemove (path : string)                (* os.Remove *)
| EExec (tool : string) (args : list string) (* exec.Command(...).Run() *)
| EPut (bucket key : string)             (* s3Client.PutObject *)
| EUpdate (id : string).                 (* cfg.db.UpdateVideo *)

(** Local files (path to contents), S3 objects ((bucket, key) to contents),
    metadata rows (id to record) and the event log. *)
Record World := mk_world {
  fs : gmap string string;
  s3 : gmap (string * string) string;
  db : gmap string Video;
  log : list Event
}.

Inductive RespBody := BodyError (msg : string) | BodyVideo (v : Video).
Record Response := mk_resp { status : Z; body : RespBody }.

Definition StatusOK := 200.
Definition StatusBadRequest := 400.
Definition StatusUnauthorized := 401.
Definition StatusNotFound := 404.
Definition StatusUnsupportedMediaType := 415.
Definition StatusInternalServerError := 500.

(** What ffmpeg does: succeed, or fail, possibly after it has already
    created its output file. *)
Inductive remux_out := RemuxOk | RemuxFailed (leaves_output : bool).

(** The outcomes of everything the handlers ask the outside world. *)
Record Env := mk_env {
  (* apiConfig *)
  cfg_jwtSecret : string;
  cfg_s3Bucket : string;
  cfg_s3Region : string;
  cfg_assetsRoot : string;
  cfg_port : string;
  (* the request *)
  req_videoID : option string;     (* uuid.Parse(r.PathValue("videoID")) *)
  req_token : option string;       (* auth.GetBearerToken(r.Header) *)
  req_form_bytes : Z;              (* bytes the multipart parser reads from the body *)
  req_form_ok : bool;              (* the multipart data is well formed *)
  req_file : string -> option (string * string);
                                   (* r.FormFile(field): contents, Content-Type *)
  (* libraries and system calls *)
  validateJWT : string -> string -> option string; (* token, secret -> user id *)
  db_error : bool;                 (* GetVideo fails, not with sql.ErrNoRows *)
  parseMediaType : string -> option string; (* mime.ParseMediaType *)
  createTemp : option string;      (* os.CreateTemp: the new name, or an error *)
  create_ok : bool;                (* os.Create *)
  copy_ok : bool;                  (* io.Copy into the new file *)
  seek_ok : bool;                  (* tempFile.Seek *)
  ffprobe : probe_out;
  ffmpeg : remux_out;
  faststart_output : string -> string;
                                   (* the file [ffmpeg -c copy -movflags faststart]
                                      writes for a given input file *)
  faststart_partial : string;      (* what a failed run leaves in its output file *)
  open_ok : bool;                  (* os.Open(processedPath) *)
  seek2_ok : bool;                 (* processedFile.Seek *)
  randRead : option (list Z);      (* rand.Read into a 32-byte buffer *)
  put_ok : bool;                   (* s3Client.PutObject *)
  update_ok : bool                 (* cfg.db.UpdateVideo *)
}.

(** Deferred calls; [Close] has no effect on the modelled state. *)
Inductive Defer := DRemove (path : string) | DClose.

Record St := mk_st { world : World; defers : list Defer }.

(** A handler step either continues with a value or has written its
    response and returned. *)
Definition M (A : Type) : Type := St -> (A + Response) * St.

Definition ret {A} (a : A) : M A := fun s => (inl a, s).

Definition bind {A B} (m : M A) (k : A -> M B) : M B :=
  fun s => match m s with
           | (inl a, s') => k a s'
           | (inr r, s') => (inr r, s')
           end.

Notation "'let*' x := m 'in' k" := (bind m (fun x => k))
  (at level 200, x name, m at level 100, k at level 200).
Notation "'let*' ' p := m 'in' k" := (bind m (fun x => match x with p => k end))
  (at level 200, p pattern, m at level 100, k at level 200).

(** [respondWithError(w, code, msg, err); return] *)
Definition respondWithError {A} (code : Z) (msg : string) : M A :=
  fun s => (inr (mk_resp code (BodyError msg)), s).

(** [respondWithJSON(w, code, v)] at the end of a handler. *)
Definition respondWithJSON {A} (code : Z) (v : Video) : M A :=
  fun s => (inr (mk_resp code (BodyVideo v)), s).

Definition or_fail {A} (o : option A) (code : Z) (msg : string) : M A :=
  match o with Some a => ret a | None => respondWithError code msg end.

Definition check (b : bool) (code : Z) (msg : string) : M unit :=
  if b then ret tt else respondWithError code msg.

Definition get_world : M World := fun s => (inl (world s), s).

Definition put_world (w : World) : M unit :=
  fun s => (inl tt, mk_st w (defers s)).

Definition emit (e : Event) (w : World) : World :=
  mk_world (fs w) (s3 w) (db w) (log w ++ [e]).

Definition modify (f : World -> World) : M unit :=
  fun s => (inl tt, mk_st (f (world s)) (defers s)).

Definition defer (d : Defer) : M unit :=
  fun s => (inl tt, mk_st (world s) (d :: defers s)).

Definition write_file (p c : string) (w : World) : World :=
  mk_world (<[p := c]> (fs w)) (s3 w) (db w) (log w).

(** [os.Remove]: deletes the file if it is there; the error returned when
    it is not is ignored by every caller. *)
Definition remove_file (p : string) (w : World) : World :=
  emit (ERemove p) (mk_world (delete p (fs w)) (s3 w) (db w) (log w)).

Definition run_defer (d : Defer) (w : World) : World :=
  match d with DRemove p => remove_file p w | DClose => w end.

(** Deferred calls run last-in first-out when the handler returns. *)
Fixpoint run_defers (ds : list Defer) (w : World) : World :=
  match ds with [] => w | d :: ds' => run_defers ds' (run_defer d w) end.

Definition run_handler (h : M Response) (w : World) : Response * World :=
  let '(r, s) := h (mk_st w []) in
  (match r with inl x => x | inr x => x end, run_defers (defers s) (world s)).

(* ================================================================== *)
(** ** Steps shared by the handlers                                    *)
(* ================================================================== *)

(** [cfg.db.GetVideo(videoID)] and its error handling. *)
Definition getVideo (env : Env) (videoID : string) : M Video :=
  let* w := get_world in
  let* _ := put_world (emit (EGetVideo videoID) w) in
  if db_error env then respondWithError StatusInternalServerError "Database error"
  else match db w !! videoID with
       | None => respondWithError StatusNotFound "Video not found"
       | Some v => ret v
       end.

(** [uuid.Parse(userID.String())]: the canonical text of a UUID parses
    back to the same UUID. *)
Definition reparse_uuid (u : string) : option string := Some u.

(** [r.ParseMultipartForm(maxMemory)] over a body that is either the raw
    body or, after [http.MaxBytesReader], one that errors once more than
    [limit] bytes are read. *)
Definition parseMultipartForm (env : Env) (limit : option Z) : M unit :=
  let over := match limit with Some n => n <? req_form_bytes env | None => false end in
  check (negb over && req_form_ok env) StatusBadRequest "Error parsing form".

(** [os.CreateTemp("", "tubely-upload-*.mp4")] *)
Definition createTempStep (env : Env) : M string :=
  match createTemp env with
  | None => respondWithError StatusInternalServerError "Failed to create temp file"
  | Some p => let* _ := modify (fun w => emit (ECreate p) (write_file p "" w)) in ret p
  end.

(** [io.Copy(dst, file)] *)
Definition copyStep (env : Env) (p contents : string) (msg : string) : M unit :=
  if copy_ok env then modify (fun w => emit (EWrite p) (write_file p contents w))
  else respondWithError StatusInternalServerError msg.

Definition ffprobe_args (filePath : string) : list string :=
  ["-v"; "error"; "-print_format"; "json"; "-show_streams"; filePath].

(** The call of [getVideoAspectRatio(tempFile.Name())] (lines 203-209). *)
Definition aspectStep (env : Env) (filePath : string) : M string :=
  let* _ := modify (emit (EExec "ffprobe" (ffprobe_args filePath))) in
  match getVideoAspectRatio (ffprobe env) with
  | inl aspect => ret aspect
  | inr _ => respondWithError StatusInternalServerError "Failed to analyze video"
  end.

Definition ffmpeg_args (filePath outputPath : string) : list string :=
  ["-i"; filePath; "-c"; "copy"; "-movflags"; "faststart"; "-f"; "mp4"; outputPath].

(** [processVideoForFastStart] and its call (lines 83-103, 234-240): on
    success the output file holds what ffmpeg writes for the staged file
    ([faststart_output]: the same streams, the container rewritten with its
    index in front); a failed run may leave a partial output file behind. *)
Definition fastStartStep (env : Env) (filePath : string) : M string :=
  let outputPath := filePath ++ ".processing" in
  let* w := get_world in
  let* _ := put_world (emit (EExec "ffmpeg" (ffmpeg_args filePath outputPath)) w) in
  match ffmpeg env with
  | RemuxOk =>
      let* _ := modify (write_file outputPath
                          (faststart_output env (default "" (fs w !! filePath)))) in
      ret outputPath
  | RemuxFailed leaves =>
      let* _ := modify (fun w' => if leaves then write_file outputPath (faststart_partial env) w'
                                  else w') in
      respondWithError StatusInternalServerError "Video processing failed"
  end.

(** [fmt.Sprintf("%s/%s.mp4", aspect, base64.RawURLEncoding.EncodeToString(randomBytes))] *)
Definition objectKey (aspect : string) (randomBytes : list Z) : string :=
  aspect ++ "/" ++ EncodeToString randomBytes ++ ".mp4".

(** [s3Client.PutObject] of the file at [path]. *)
Definition putObjectStep (env : Env) (bucket key path : string) : M unit :=
  if put_ok env then
    modify (fun w => emit (EPut bucket key)
                       (mk_world (fs w) (<[(bucket, key) := default "" (fs w !! path)]> (s3 w))
                                 (db w) (log w)))
  else respondWithError StatusInternalServerError "Failed to upload to S3".

(** [cfg.db.UpdateVideo(video)] *)
Definition updateVideoStep (env : Env) (v : Video) : M unit :=
  if update_ok env then
    modify (fun w => emit (EUpdate (ID v)) (mk_world (fs w) (s3 w) (<[ID v := v]> (db w)) (log w)))
  else respondWithError StatusInternalServerError "Failed to update video".

(* ================================================================== *)
(** ** [handlerUploadVideo] (handler_upload_video.go, lines 105-295)   *)
(* ================================================================== *)

Definition maxUploadBytes : Z := Z.shiftl 1 30.

Definition handlerUploadVideo (env : Env) : M Response :=
  (* r.Body = http.MaxBytesReader(w, r.Body, 1<<30) *)
  let* videoID := or_fail (req_videoID env) StatusBadRequest "Invalid video ID" in
  let* token := or_fail (req_token env) StatusUnauthorized "Couldn't find JWT" in
  let* userID := or_fail (validateJWT env token (cfg_jwtSecret env))
                   StatusUnauthorized "Invalid JWT" in
  let* video := getVideo env videoID in
  let* userUUID := or_fail (reparse_uuid userID) StatusUnauthorized "Invalid user ID" in
  let* _ := check (String.eqb (UserID video) userUUID)
              StatusUnauthorized "Unauthorized access" in
  let* _ := parseMultipartForm env (Some maxUploadBytes) in
  let* '(file, contentType) := or_fail (req_file env "video")
                                 StatusBadRequest "Missing video file" in
  let* parsedMediaType := or_fail (parseMediaType env contentType)
                            StatusBadRequest "Invalid Content-Type" in
  let* _ := check (String.eqb parsedMediaType "video/mp4")
              StatusUnsupportedMediaType "Only MP4 videos are allowed" in
  let* tempFile := createTempStep env in
  let* _ := defer (DRemove tempFile) in
  let* _ := defer DClose in
  let* _ := copyStep env tempFile file "Failed to save video" in
  let* _ := check (seek_ok env) StatusInternalServerError "Failed to process video" in
  let* aspect := aspectStep env tempFile in
  let* processedPath := fastStartStep env tempFile in
  let* _ := defer (DRemove processedPath) in
  let* _ := check (open_ok env) StatusInternalServerError "Failed to open processed video" in
  let* _ := defer DClose in
  let* _ := check (seek2_ok env) StatusInternalServerError "Failed to read processed video" in
  let* randomBytes := or_fail (randRead env) StatusInternalServerError
                        "Failed to generate filename" in
  let key := objectKey aspect randomBytes in
  let* _ := putObjectStep env (cfg_s3Bucket env) key processedPath in
  let videoURL := "https://" ++ cfg_s3Bucket env ++ ".s3." ++ cfg_s3Region env
                  ++ ".amazonaws.com/" ++ key in
  let video' := with_video_url video (Some videoURL) in
  let* _ := updateVideoStep env video' in
  respondWithJSON StatusOK video'.

Definition uploadVideo (env : Env) (w : World) : Response * World :=
  run_handler (handlerUploadVideo env) w.

Ltac unfold_handler :=
  unfold uploadVideo, run_handler, handlerUploadVideo, getVideo, reparse_uuid,
    parseMultipartForm, createTempStep, copyStep, aspectStep, fastStartStep,
    putObjectStep, updateVideoStep in *;
  unfold bind, ret, or_fail, check, respondWithError, respondWithJSON, get_world,
    put_world, modify, defer in *.

(* ================================================================== *)
(** ** The persisted locator and the read-path signer (part_002)       *)
(* ================================================================== *)

(** [fmt.Sprintf("%s,%s", cfg.s3Bucket, objectKey)], stored in
    [video.VideoURL] by the signed-URL version of the upload handler. *)
Definition locator (bucket key : string) : string := bucket ++ "," ++ key.

(** Text before the first comma and text after it. *)
Fixpoint cut_comma (s : string) : option (string * string) :=
  match s with
  | EmptyString => None
  | String c rest =>
      if Ascii.eqb c ","%char then Some (EmptyString, rest)
      else match cut_comma rest with
           | Some (a, b) => Some (String c a, b)
           | None => None
           end
  end.

(** [strings.SplitN(s, ",", 2)]: at most one cut, at the first comma; with
    no comma (also for [""], where Go caps [n] at [len(s)+1 = 1]) the
    result is [[s]]. *)
Definition SplitN2 (s : string) : list string :=
  match cut_comma s with
  | Some (a, b) => [a; b]
  | None => [s]
  end.

(** [15*time.Minute], in seconds. *)
Definition presignExpiry : Z := 15 * 60.

(** [cfg.dbVideoToSignedVideo(video)]; [presign bucket key expiry] is
    [generatePresignedURL] (the S3 presign client), [None] for its error.
    The second component is the returned error; for a presign error only
    the prefix of [fmt.Errorf("failed to presign URL: %w", err)] is kept,
    the SDK's error text is not modelled. *)
Definition dbVideoToSignedVideo (presign : string -> string -> Z -> option string)
    (video : Video) : Video * option string :=
  let no_url := (with_video_url video None, None) in
  match VideoURL video with
  | None => no_url
  | Some u =>
      if String.eqb u "" then no_url
      else match SplitN2 u with
           | [bucket; key] =>
               match presign bucket key presignExpiry with
               | Some url => (with_video_url video (Some url), None)
               | None => (video, Some "failed to presign URL")
               end
           | _ => (video, Some ("invalid video URL format: " ++ u))
           end
  end.

(* ================================================================== *)
(** ** The thumbnail handlers that write into the assets directory      *)
(* ================================================================== *)

(** [filepath.Join(cfg.assetsRoot, filename)] for a plain file name
    (Join's cleaning of the result is left out). *)
Definition join_path (root name : string) : string :=
  if String.eqb root "" then name else root ++ "/" ++ name.

(** [os.Create(filePath)]: creates or truncates. *)
Definition createStep (env : Env) (p : string) : M unit :=
  if create_ok env then modify (fun w => emit (ECreate p) (write_file p "" w))
  else respondWithError StatusInternalServerError "Failed to create file".

(** [getExtensionFromMIME] (part_000, lines 114-128). *)
Definition getExtensionFromMIME (mimeType : string) : option string :=
  if String.eqb mimeType "image/jpeg" then Some ".jpg"
  else if String.eqb mimeType "image/png" then Some ".png"
  else if String.eqb mimeType "image/gif" then Some ".gif"
  else if String.eqb mimeType "image/webp" then Some ".webp"
  else None.

(** The tail both variants share once the file is written: lines 78-111
    of part_000, 105-138 of part_001. *)
Definition thumbnailCommit (env : Env) (videoID userID filename : string) : M Response :=
  let* video := getVideo env videoID in
  let* userUUID := or_fail (reparse_uuid userID) StatusUnauthorized "Invalid user ID" in
  let* _ := check (String.eqb (UserID video) userUUID)
              StatusUnauthorized "Unauthorized access" in
  let thumbnailURL := "http://localhost:" ++ cfg_port env ++ "/assets/" ++ filename in
  let video' := with_thumbnail_url video (Some thumbnailURL) in
  let* _ := updateVideoStep env video' in
  respondWithJSON StatusOK video'.

(** part_000: the file is named after the video id. *)
Module ThumbnailByID.

Definition handlerUploadThumbnail (env : Env) : M Response :=
  let* videoID := or_fail (req_videoID env) StatusBadRequest "Invalid video ID" in
  let* token := or_fail (req_token env) StatusUnauthorized "Couldn't find JWT" in
  let* userID := or_fail (validateJWT env token (cfg_jwtSecret env))
                   StatusUnauthorized "Invalid JWT" in
  let* _ := parseMultipartForm env None in
  let* '(file, mediaType) := or_fail (req_file env "thumbnail")
                               StatusBadRequest "Missing thumbnail file" in
  let* ext := or_fail (getExtensionFromMIME mediaType)
                StatusUnsupportedMediaType "Unsupported file type" in
  let filename := videoID ++ ext in
  let filePath := join_path (cfg_assetsRoot env) filename in
  let* _ := createStep env filePath in
  let* _ := defer DClose in
  let* _ := copyStep env filePath file "Failed to save file" in
  thumbnailCommit env videoID userID filename.

Definition run (env : Env) (w : World) : Response * World :=
  run_handler (handlerUploadThumbnail env) w.

End ThumbnailByID.

(** part_001: JPEG or PNG only, a random file name. *)
Module ThumbnailRandom.

Definition handlerUploadThumbnail (env : Env) : M Response :=
  let* videoID := or_fail (req_videoID env) StatusBadRequest "Invalid video ID" in
  let* token := or_fail (req_token env) StatusUnauthorized "Couldn't find JWT" in
  let* userID := or_fail (validateJWT env token (cfg_jwtSecret env))
                   StatusUnauthorized "Invalid JWT" in
  let* _ := parseMultipartForm env None in
  let* '(file, mediaTypeWithParams) := or_fail (req_file env "thumbnail")
                                         StatusBadRequest "Missing thumbnail file" in
  let* parsedMediaType := or_fail (parseMediaType env mediaTypeWithParams)
                            StatusBadRequest "Invalid Content-Type header" in
  let* _ := check (String.eqb parsedMediaType "image/jpeg"
                   || String.eqb parsedMediaType "image/png")
              StatusUnsupportedMediaType "Only JPEG and PNG images are allowed" in
  let ext := if String.eqb parsedMediaType "image/jpeg" then ".jpg"
             else if String.eqb parsedMediaType "image/png" then ".png" else "" in
  let* randomBytes := or_fail (randRead env) StatusInternalServerError
                        "Failed to generate filename" in
  let filename := EncodeToString randomBytes ++ ext in
  let filePath := join_path (cfg_assetsRoot env) filename in
  let* _ := createStep env filePath in
  let* _ := defer DClose in
  let* _ := copyStep env filePath file "Failed to save file" in
  thumbnailCommit env videoID userID filename.

Definition run (env : Env) (w : World) : Response * World :=
  run_handler (handlerUploadThumbnail env) w.

End ThumbnailRandom.

(** part_003: the earlier video handler, which uploads the staged file
    itself under a flat key. *)
Module VideoFlat.

Definition handlerUploadVideo (env : Env) : M Response :=
  let* videoID := or_fail (req_videoID env) StatusBadRequest "Invalid video ID" in
  let* token := or_fail (req_token env) StatusUnauthorized "Couldn't find JWT" in
  let* userID := or_fail (validateJWT env token (cfg_jwtSecret env))
                   StatusUnauthorized "Invalid JWT" in
  let* video := getVideo env videoID in
  let* userUUID := or_fail (reparse_uuid userID) StatusUnauthorized "Invalid user ID" in
  let* _ := check (String.eqb (UserID video) userUUID)
              StatusUnauthorized "Unauthorized access" in
  let* _ := parseMultipartForm env (Some maxUploadBytes) in
  let* '(file, contentType) := or_fail (req_file env "video")
                                 StatusBadRequest "Missing video file" in
  let* parsedMediaType := or_fail (parseMediaType env contentType)
                            StatusBadRequest "Invalid Content-Type" in
  let* _ := check (String.eqb parsedMediaType "video/mp4")
              StatusUnsupportedMediaType "Only MP4 videos are allowed" in
  let* tempFile := createTempStep env in
  let* _ := defer (DRemove tempFile) in
  let* _ := defer DClose in
  let* _ := copyStep env tempFile file "Failed to save video" in
  let* _ := check (seek_ok env) StatusInternalServerError "Failed to process video" in
  let* randomBytes := or_fail (randRead env) StatusInternalServerError
                        "Failed to generate filename" in
  let key := EncodeToString randomBytes ++ ".mp4" in
  let* _ := putObjectStep env (cfg_s3Bucket env) key tempFile in
  let videoURL := "https://" ++ cfg_s3Bucket env ++ ".s3." ++ cfg_s3Region env
                  ++ ".amazonaws.com/" ++ key in
  let video' := with_video_url video (Some videoURL) in
  let* _ := updateVideoStep env video' in
  respondWithJSON StatusOK video'.

Definition run (env : Env) (w : World) : Response * World :=
  run_handler (handlerUploadVideo env) w.

End VideoFlat.

(** part_002: the video handler that stores the locator [bucket,key] and
    answers with a presigned URL. *)
Module VideoSigned.

Definition handlerUploadVideo (env : Env) (presign : string -> string -> Z -> option string)
    : M Response :=
  let* videoID := or_fail (req_videoID env) StatusBadRequest "Invalid video ID" in
  let* token := or_fail (req_token env) StatusUnauthorized "Couldn't find JWT" in
  let* userID := or_fail (validateJWT env token (cfg_jwtSecret env))
                   StatusUnauthorized "Invalid JWT" in
  let* video := getVideo env videoID in
  let* userUUID := or_fail (reparse_uuid userID) StatusUnauthorized "Invalid user ID" in
  let* _ := check (String.eqb (UserID video) userUUID)
              StatusUnauthorized "Unauthorized access" in
  let* _ := parseMultipartForm env (Some maxUploadBytes) in
  let* '(file, contentType) := or_fail (req_file env "video")
                                 StatusBadRequest "Missing video file" in
  let* parsedMediaType := or_fail (parseMediaType env contentType)
                            StatusBadRequest "Invalid Content-Type" in
  let* _ := check (String.eqb parsedMediaType "video/mp4")
              StatusUnsupportedMediaType "Only MP4 videos are allowed" in
  let* tempFile := createTempStep env in
  let* _ := defer (DRemove tempFile) in
  let* _ := defer DClose in
  let* _ := copyStep env tempFile file "Failed to save video" in
  let* _ := check (seek_ok env) StatusInternalServerError "Failed to process video" in
  let* aspect := aspectStep env tempFile in
  let* processedPath := fastStartStep env tempFile in
  let* _ := defer (DRemove processedPath) in
  let* _ := check (open_ok env) StatusInternalServerError "Failed to open processed video" in
  let* _ := defer DClose in
  let* _ := check (seek2_ok env) StatusInternalServerError "Failed to read processed video" in
  let* randomBytes := or_fail (randRead env) StatusInternalServerError
                        "Failed to generate filename" in
  let key := objectKey aspect randomBytes in
  let* _ := putObjectStep env (cfg_s3Bucket env) key processedPath in
  let video' := with_video_url video (Some (locator (cfg_s3Bucket env) key)) in
  let* _ := updateVideoStep env video' in
  match dbVideoToSignedVideo presign video' with
  | (_, Some _) => respondWithError StatusInternalServerError "Failed to generate URL"
  | (signedVideo, None) => respondWithJSON StatusOK signedVideo
  end.

Definition run (env : Env) (presign : string -> string -> Z -> option string)
    (w : World) : Response * World :=
  run_handler (handlerUploadVideo env presign) w.

End VideoSigned.

(** part_002: the thumbnail handler that keeps thumbnails in the
    process-wide map [videoThumbnails]. *)
Module ThumbnailInMemory.

Record thumbnail := mk_thumbnail { data : string; mediaType : string }.

(** The handler monad with the map [videoThumbnails] beside the state. *)
Definition MT (A : Type) : Type :=
  St * gmap string thumbnail -> (A + Response) * (St * gmap string thumbnail).

Definition lift {A} (m : M A) : MT A :=
  fun '(s, t) => let '(r, s') := m s in (r, (s', t)).

Definition bindT {A B} (m : MT A) (k : A -> MT B) : MT B :=
  fun st => match m st with
            | (inl a, st') => k a st'
            | (inr r, st') => (inr r, st')
            end.

Notation "'let+' x := m 'in' k" := (bindT m (fun x => k))
  (at level 200, x name, m at level 100, k at level 200).
Notation "'let+' ' p := m 'in' k" := (bindT m (fun x => match x with p => k end))
  (at level 200, p pattern, m at level 100, k at level 200).

(** [videoThumbnails[videoID] = thumbnail{...}] *)
Definition storeThumbnail (videoID : string) (th : thumbnail) : MT unit :=
  fun '(s, t) => (inl tt, (s, <[videoID := th]> t)).

(** [readAll_ok] is the outcome of [io.ReadAll(file)]. *)
Definition handlerUploadThumbnail (env : Env) (readAll_ok : bool) : MT Response :=
  let+ videoID := lift (or_fail (req_videoID env) StatusBadRequest "Invalid video ID") in
  let+ token := lift (or_fail (req_token env) StatusUnauthorized "Couldn't find JWT") in
  let+ userID := lift (or_fail (validateJWT env token (cfg_jwtSecret env))
                        StatusUnauthorized "Invalid JWT") in
  let+ _ := lift (parseMultipartForm env None) in
  let+ '(file, mediaType) := lift (or_fail (req_file env "thumbnail")
                                     StatusBadRequest "Missing thumbnail file") in
  let+ data := lift (if readAll_ok then ret file
                     else respondWithError StatusInternalServerError "Error reading file") in
  let+ video := lift (getVideo env videoID) in
  let+ userUUID := lift (or_fail (reparse_uuid userID) StatusUnauthorized "Invalid user ID") in
  let+ _ := lift (check (String.eqb (UserID video) userUUID)
                    StatusUnauthorized "Unauthorized access") in
  let+ _ := storeThumbnail videoID (mk_thumbnail data mediaType) in
  let thumbnailURL := "http://localhost:" ++ cfg_port env ++ "/api/thumbnails/" ++ videoID in
  let video' := with_thumbnail_url video (Some thumbnailURL) in
  let+ _ := lift (updateVideoStep env video') in
  lift (respondWithJSON StatusOK video').

Definition run (env : Env) (readAll_ok : bool) (w : World) (thumbs : gmap string thumbnail)
    : Response * World * gmap string thumbnail :=
  let '(r, (s, t)) := handlerUploadThumbnail env readAll_ok (mk_st w [], thumbs) in
  (match r with inl x => x | inr x => x end, run_defers (defers s) (world s), t).

End ThumbnailInMemory.

(** A small concrete setting: one record owned by "user-1", a token that
    validates to [user], and one knob per outcome that the claims vary. *)
Definition sample_video : Video := mk_video "vid-1" "user-1" None None.

Definition sample_world : World :=
  mk_world ∅ ∅ {[ "vid-1" := sample_video ]} [].

Definition sample_bytes : list Z := map Z.of_nat (seq 100 32).

Definition sample_file (field : string) : option (string * string) :=
  if String.eqb field "video" then Some ("MP4DATA", "video/mp4")
  else if String.eqb field "thumbnail" then Some ("PNGDATA", "image/png")
  else None.

Definition sample_env (user : string) (form_bytes : Z) (dberr : bool)
    (remux : remux_out) (upd : bool) : Env :=
  mk_env "secret" "tubely-bucket" "us-east-2" "assets" "8091"
    (Some "vid-1") (Some "tok") form_bytes true sample_file
    (fun t _ => if String.eqb t "tok" then Some user else None)
    dberr (fun ct => Some ct) (Some "/tmp/tubely-upload-1.mp4") true true true
    (ProbeStreams [mk_stream "audio" 0 0; mk_stream "video" 1920 1080])
    remux (fun s => s ++ "+moov") "" true true (Some sample_bytes) true upd.

Example upload_video_happy_path :
  let '(r, w1) := uploadVideo (sample_env "user-1" 1000 false RemuxOk true) sample_world in
  status r = StatusOK /\ fs w1 = ∅ /\
  s3 w1 !! ("tubely-bucket", objectKey "landscape" sample_bytes) = Some "MP4DATA+moov".
Proof. vm_compute. repeat split; reflexivity. Qed.

(** The same request with another uploaded part. *)
Definition with_req_file (env : Env) (f : string -> option (string * string)) : Env :=
  mk_env (cfg_jwtSecret env) (cfg_s3Bucket env) (cfg_s3Region env) (cfg_assetsRoot env)
    (cfg_port env) (req_videoID env) (req_token env) (req_form_bytes env) (req_form_ok env) f
    (validateJWT env) (db_error env) (parseMediaType env) (createTemp env) (create_ok env)
    (copy_ok env) (seek_ok env) (ffprobe env) (ffmpeg env)
    (faststart_output env) (faststart_partial env) (open_ok env) (seek2_ok env)
    (randRead env) (put_ok env) (update_ok env).

(** A presign client that always succeeds. *)
Definition sample_presign (bucket key : string) (expiry : Z) : option string :=
  Some ("https://" ++ bucket ++ ".s3.amazonaws.com/" ++ key ++ "?X-Amz-Expires=900").

Definition sample_ok_env : Env := sample_env "user-1" 1000 false RemuxOk true.

(** The record in a JSON answer. *)
Definition uploaded_video (r : Response) : Video :=
  match body r with BodyVideo v => v | BodyError _ => sample_video end.

(** An upload whose Content-Type is "text/plain". *)
Definition text_env : Env :=
  with_req_file sample_ok_env (fun _ => Some ("hello", "text/plain")).


(* ================================================================== *)
(** ** Proof tools                                                      *)
(* ================================================================== *)

(** The events a run added to the log. *)
Definition new_events (w0 w1 : World) : list Event := drop (length (log w0)) (log w1).

Lemma new_events_app (w0 w1 : World) (evs : list Event) :
  log w1 = (log w0 ++ evs)%list -> new_events w0 w1 = evs.
Proof. unfold new_events. intros ->. apply drop_app_length. Qed.

(** Case split on the first stuck test whose scrutinee is itself free of
    tests: an outcome from the environment, a map lookup or a comparison. *)
Ltac split_outcome :=
  match goal with
  | H : context [match ?x with _ => _ end] |- _ =>
      lazymatch x with
      | context [match _ with _ => _ end] => fail
      | _ => destruct x eqn:?
      end
  | |- context [match ?x with _ => _ end] =>
      lazymatch x with
      | context [match _ with _ => _ end] => fail
      | _ => destruct x eqn:?
      end
  end.

Ltac run_all :=
  repeat (cbn in *;
          match goal with
          | H : (_, _) = (_, _) |- _ => injection H as <- <-
          | _ => split_outcome
          end).


(** The projections of the world updates. *)
Lemma fs_emit e w : fs (emit e w) = fs w. Proof. reflexivity. Qed.
Lemma s3_emit e w : s3 (emit e w) = s3 w. Proof. reflexivity. Qed.
Lemma db_emit e w : db (emit e w) = db w. Proof. reflexivity. Qed.
Lemma log_emit e w : log (emit e w) = (log w ++ [e])%list. Proof. reflexivity. Qed.
Lemma fs_write_file p c w : fs (write_file p c w) = <[p := c]> (fs w). Proof. reflexivity. Qed.
Lemma s3_write_file p c w : s3 (write_file p c w) = s3 w. Proof. reflexivity. Qed.
Lemma db_write_file p c w : db (write_file p c w) = db w. Proof. reflexivity. Qed.
Lemma log_write_file p c w : log (write_file p c w) = log w. Proof. reflexivity. Qed.
Lemma fs_remove_file p w : fs (remove_file p w) = delete p (fs w). Proof. reflexivity. Qed.
Lemma s3_remove_file p w : s3 (remove_file p w) = s3 w. Proof. reflexivity. Qed.
Lemma db_remove_file p w : db (remove_file p w) = db w. Proof. reflexivity. Qed.
Lemma log_remove_file p w : log (remove_file p w) = (log w ++ [ERemove p])%list.
Proof. reflexivity. Qed.
Lemma fs_mk_world f o d l : fs (mk_world f o d l) = f. Proof. reflexivity. Qed.
Lemma s3_mk_world f o d l : s3 (mk_world f o d l) = o. Proof. reflexivity. Qed.
Lemma db_mk_world f o d l : db (mk_world f o d l) = d. Proof. reflexivity. Qed.
Lemma log_mk_world f o d l : log (mk_world f o d l) = l. Proof. reflexivity. Qed.

Create Rewrite HintDb world.
#[export] Hint Rewrite fs_emit s3_emit db_emit log_emit fs_write_file s3_write_file
  db_write_file log_write_file fs_remove_file s3_remove_file db_remove_file
  log_remove_file fs_mk_world s3_mk_world db_mk_world log_mk_world : world.

(** Compute the events of a run as a list after [log w0]. *)
Ltac norm_events :=
  unfold new_events in *; autorewrite with world in *;
  rewrite <- ?app_assoc in *; rewrite ?drop_app_length, ?drop_all in *; cbn [In app] in *.

(** Unfold the in-memory thumbnail handler down to the shared steps. *)
Ltac unfold_inmem :=
  unfold ThumbnailInMemory.run, ThumbnailInMemory.handlerUploadThumbnail,
    ThumbnailInMemory.lift, ThumbnailInMemory.bindT, ThumbnailInMemory.storeThumbnail in *;
  unfold_handler.


(* ================================================================== *)
(** ** Comparison objects used by the statements                      *)
(* ================================================================== *)

(** A geometry on the edge of the band [|w/h - p/q| <= (p/q)/20]. *)
Definition on_edge (width height p q : Z) : bool :=
  20 * Z.abs (width * q - p * height) =? p * height.

(** [s] is the first stream of [l] whose codec type is "video". *)
Definition first_video (l : list stream) (s : stream) : Prop :=
  exists pre post, l = (pre ++ s :: post)%list /\
    Forall (fun t => CodecType t <> "video") pre /\ CodecType s = "video".

(** The bucket part of a locator holds no comma. *)
Definition has_comma (s : string) : bool :=
  existsb (Ascii.eqb ","%char) (list_ascii_of_string s).

(** The order in which a thumbnail handler touches the disk and the
    metadata store: whenever a run reads a record, its first events are
    the creation and the complete write of a file in the assets directory,
    holding the uploaded data when the run ends; when the run ends in
    "Unauthorized access", nothing else happened and the record is as it
    was. *)
Definition file_written_before_record_read (run : Env -> World -> Response * World) : Prop :=
  forall env w0 r w1 id,
    run env w0 = (r, w1) -> In (EGetVideo id) (new_events w0 w1) ->
    exists filename contents mt rest,
      req_file env "thumbnail" = Some (contents, mt) /\
      new_events w0 w1 =
        (ECreate (join_path (cfg_assetsRoot env) filename)
          :: EWrite (join_path (cfg_assetsRoot env) filename) :: EGetVideo id :: rest)%list /\
      fs w1 !! join_path (cfg_assetsRoot env) filename = Some contents /\
      (body r = BodyError "Unauthorized access" -> db w1 = db w0 /\ rest = []).

(* ================================================================== *)
(** ** Lemmas                                                           *)
(* ================================================================== *)

(** Error analysis of the float64 band tests of [classify]: the rounding
    of [float64 w / float64 h], of the subtraction and of the constants is
    below [2^-52] relatively, while a ratio off the band edge lies at least
    [2^-41] away from it for widths and heights up to [2^32]. *)
Module FloatBands.

(* [Floats] declares a [classify] of its own (the class of a float). *)
Local Abbreviation classify_ratio := classify.

Import Reals Lra Floats.

Section Rounding.

Section SpecRound.

Local Abbreviation emin := (SpecFloat.emin prec emax).

Lemma emin_val : emin = -1074.
Proof. reflexivity. Qed.

Lemma digits2_pos_bounds (p : positive) :
  2 ^ (Zpos (digits2_pos p) - 1) <= Zpos p < 2 ^ Zpos (digits2_pos p).
Proof.
  induction p as [p IH|p IH|]; cbn [digits2_pos];
    [rewrite Pos2Z.inj_succ, (Pos2Z.inj_xI p) | rewrite Pos2Z.inj_succ, (Pos2Z.inj_xO p) | split; reflexivity || (compute; congruence)];
    set (d := Zpos (digits2_pos p)) in *;
    assert (0 < d) by (unfold d; lia); clearbody d;
    replace (Z.succ d - 1) with d by lia;
    rewrite Z.pow_succ_r by lia;
    assert (2 ^ d = 2 * 2 ^ (d - 1)) by (rewrite <- Z.pow_succ_r by lia; f_equal; lia);
    lia.
Qed.

Lemma shr_1_m (r : shr_record) :
  0 <= shr_m r -> shr_m (shr_1 r) = shr_m r / 2 /\ 0 <= shr_m (shr_1 r).
Proof.
  destruct r as [m rr ss]; cbn [shr_m]; intros Hm.
  destruct m as [|[p|p|]|p]; cbn; try (split; [reflexivity | lia]); try lia.
  - split; [| lia]. rewrite (Pos2Z.inj_xI p).
    apply Z.div_unique with 1; lia.
  - split; [| lia]. rewrite (Pos2Z.inj_xO p).
    apply Z.div_unique with 0; lia.
Qed.

Lemma iter_shr_1_m (p : positive) (r : shr_record) :
  0 <= shr_m r ->
  shr_m (iter_pos shr_1 p r) = shr_m r / 2 ^ Zpos p /\ 0 <= shr_m (iter_pos shr_1 p r).
Proof.
  revert r; induction p as [p IH|p IH|]; intros r Hr; cbn [iter_pos].
  - destruct (shr_1_m r Hr) as [H1 H1'].
    destruct (IH _ H1') as [H2 H2']. destruct (IH _ H2') as [H3 H3'].
    split; [| exact H3']. rewrite H3, H2, H1.
    rewrite !Z.div_div by lia.
    f_equal. replace (Zpos p~1) with (1 + Zpos p + Zpos p) by lia.
    rewrite !Z.pow_add_r, Z.pow_1_r by lia. ring.
  - destruct (IH _ Hr) as [H2 H2']. destruct (IH _ H2') as [H3 H3'].
    split; [| exact H3']. rewrite H3, H2.
    rewrite !Z.div_div by lia.
    f_equal. replace (Zpos p~0) with (Zpos p + Zpos p) by lia.
    rewrite !Z.pow_add_r by lia. ring.
  - destruct (shr_1_m r Hr) as [H1 H1']. split; [| exact H1']. rewrite H1. reflexivity.
Qed.

(** One alignment step of the rounding: the mantissa is divided by a
    power of two and keeps at least one bit. *)
Lemma shr_fexp_spec (m e : Z) (l : location) :
  1 <= m -> emin <= e ->
  let '(r, e') := shr_fexp prec emax m e l in
  e <= e' /\ 1 <= shr_m r /\
  shr_m r * 2 ^ (e' - e) <= m < (shr_m r + 1) * 2 ^ (e' - e).
Proof.
  intros Hm He. unfold shr_fexp, shr.
  destruct m as [|pm|pm]; try lia.
  assert (Hsm : shr_m (shr_record_of_loc (Zpos pm) l) = Zpos pm)
    by (destruct l as [|[]]; reflexivity).
  pose proof (digits2_pos_bounds pm) as Hd.
  cbn [Zdigits2].
  destruct (fexp prec emax (Zpos (digits2_pos pm) + e) - e) as [|p|p] eqn:En.
  - rewrite Hsm, Z.sub_diag, Z.pow_0_r. lia.
  - destruct (iter_shr_1_m p (shr_record_of_loc (Zpos pm) l)) as [H1 H2]; [rewrite Hsm; lia |].
    rewrite H1, Hsm. replace (e + Zpos p - e) with (Zpos p) by lia.
    unfold fexp in En.
    assert (Hp : Zpos p <= Zpos (digits2_pos pm) - 1).
    { unfold prec, emax in *. lia. }
    assert (Hpow : 2 ^ Zpos p <= Zpos pm).
    { eapply Z.le_trans; [apply Z.pow_le_mono_r; [lia | exact Hp] | lia]. }
    pose proof (Z.div_mod (Zpos pm) (2 ^ Zpos p) ltac:(lia)).
    pose proof (Z.mod_pos_bound (Zpos pm) (2 ^ Zpos p) ltac:(lia)).
    assert (1 <= Zpos pm / 2 ^ Zpos p).
    { apply Z.div_le_lower_bound; lia. }
    repeat split; lia.
  - rewrite Hsm, Z.sub_diag, Z.pow_0_r. lia.
Qed.

Lemma round_nearest_even_cases (m : Z) (l : location) :
  round_nearest_even m l = m \/ round_nearest_even m l = m + 1.
Proof.
  destruct l as [|[]]; cbn; auto. destruct (Z.even m); auto.
Qed.

(** Rounding a positive mantissa: the result is within one unit of its
    last place of the input, and not more than twice as large. *)
Lemma binary_round_aux_spec (sx : bool) (mx ex : Z) (lx : location) :
  1 <= mx -> emin <= ex ->
  exists (m : positive) (e : Z),
    ex <= e /\
    (Zpos m - 1) * 2 ^ (e - ex) <= mx /\ mx + 1 <= (Zpos m + 1) * 2 ^ (e - ex) /\
    2 ^ (e - ex) <= 2 * mx /\
    binary_round_aux prec emax sx mx ex lx =
      if e <=? emax - prec then S754_finite sx m e else S754_infinity sx.
Proof.
  intros Hm He. unfold binary_round_aux.
  pose proof (shr_fexp_spec mx ex lx Hm He) as H1.
  destruct (shr_fexp prec emax mx ex lx) as [r1 e1].
  destruct H1 as (He1 & Hm1 & Hlo1 & Hhi1).
  set (m2 := round_nearest_even (shr_m r1) (loc_of_shr_record r1)).
  assert (Hm2 : m2 = shr_m r1 \/ m2 = shr_m r1 + 1) by apply round_nearest_even_cases.
  pose proof (shr_fexp_spec m2 e1 loc_Exact ltac:(lia) ltac:(lia)) as H3.
  destruct (shr_fexp prec emax m2 e1 loc_Exact) as [r3 e3].
  destruct H3 as (He3 & Hm3 & Hlo3 & Hhi3).
  destruct (shr_m r3) as [|m3|m3] eqn:E3; try lia.
  exists m3, e3.
  assert (HA : 1 <= 2 ^ (e1 - ex)) by (apply Z.pow_pos_nonneg || idtac; apply (Z.pow_le_mono_r 2 0); lia).
  assert (HB : 1 <= 2 ^ (e3 - e1)) by (apply (Z.pow_le_mono_r 2 0); lia).
  assert (HAB : 2 ^ (e3 - ex) = 2 ^ (e1 - ex) * 2 ^ (e3 - e1)).
  { rewrite <- Z.pow_add_r by lia. f_equal. lia. }
  rewrite HAB.
  set (A := 2 ^ (e1 - ex)) in *. set (B := 2 ^ (e3 - e1)) in *.
  set (m1 := shr_m r1) in *.
  split; [lia |].
  split; [| split; [| split]].
  - assert (Zpos m3 * B * A <= (m1 + 1) * A) by (apply Z.mul_le_mono_nonneg_r; lia).
    nia.
  - assert ((m2 + 1) * A <= (Zpos m3 + 1) * B * A) by (apply Z.mul_le_mono_nonneg_r; lia).
    nia.
  - assert (Zpos m3 * B * A <= (m1 + 1) * A) by (apply Z.mul_le_mono_nonneg_r; lia).
    nia.
  - reflexivity.
Qed.

End SpecRound.

End Rounding.

Section Normalization.

Local Abbreviation emin := (SpecFloat.emin prec emax).

Lemma digits2_pos_53 (m : positive) :
  2 ^ 52 <= Zpos m < 2 ^ 53 -> Zpos (digits2_pos m) = 53.
Proof.
  intros Hm. pose proof (digits2_pos_bounds m) as [Hlo Hhi].
  destruct (Z.lt_trichotomy (Zpos (digits2_pos m)) 53) as [Hlt | [Heq | Hgt]]; [| exact Heq |].
  - assert (2 ^ Zpos (digits2_pos m) <= 2 ^ 52) by (apply Z.pow_le_mono_r; lia). lia.
  - assert (2 ^ 53 <= 2 ^ (Zpos (digits2_pos m) - 1)) by (apply Z.pow_le_mono_r; lia). lia.
Qed.

Lemma iter_xO_mul (p k : positive) : Zpos (Pos.iter xO p k) = Zpos p * 2 ^ Zpos k.
Proof.
  induction k as [|k IH] using Pos.peano_ind.
  - cbn. lia.
  - rewrite Pos.iter_succ, Pos2Z.inj_xO, IH, Pos2Z.inj_succ, Z.pow_succ_r by lia. ring.
Qed.

(** A mantissa of 53 bits with an exponent in range is left as it is. *)
Lemma binary_round_aux_exact (sx : bool) (m : positive) (e : Z) :
  Zpos (digits2_pos m) = 53 -> emin <= e <= emax - prec ->
  binary_round_aux prec emax sx (Zpos m) e loc_Exact = S754_finite sx m e.
Proof.
  intros Hd He. unfold binary_round_aux, shr_fexp. cbn [Zdigits2].
  assert (H0 : fexp prec emax (Zpos (digits2_pos m) + e) - e = 0).
  { unfold fexp. rewrite Hd. unfold SpecFloat.emin, prec, emax in *. lia. }
  rewrite H0. cbn [shr shr_record_of_loc shr_m loc_of_shr_record round_nearest_even].
  cbn [Zdigits2]. rewrite H0. cbn [shr shr_record_of_loc shr_m].
  destruct He as [_ He2]. apply Z.leb_le in He2. rewrite He2.
  reflexivity.
Qed.

(** Integers below 2^53 convert exactly, to a 53-bit mantissa. *)
Lemma binary_normalize_int (z : Z) :
  1 <= z < 2 ^ 53 ->
  exists m e, binary_normalize prec emax z 0 false = S754_finite false m e /\
    Zpos (digits2_pos m) = 53 /\ -52 <= e <= 0 /\ Zpos m = z * 2 ^ (- e).
Proof.
  intros Hz. destruct z as [|p|p]; try lia. cbn [binary_normalize]. unfold binary_round.
  pose proof (digits2_pos_bounds p) as [Hlo Hhi].
  assert (Hd : Zpos (digits2_pos p) <= 53).
  { destruct (Z.le_gt_cases (Zpos (digits2_pos p)) 53) as [H|H]; [exact H |].
    assert (2 ^ 53 <= 2 ^ (Zpos (digits2_pos p) - 1)) by (apply Z.pow_le_mono_r; lia). lia. }
  assert (Hf : fexp prec emax (Zpos (digits2_pos p) + 0) = Zpos (digits2_pos p) - 53).
  { unfold fexp, SpecFloat.emin, prec, emax. lia. }
  rewrite Hf. unfold shl_align.
  destruct (Zpos (digits2_pos p) - 53 - 0) as [|k|k] eqn:Ek.
  - exists p, 0. rewrite binary_round_aux_exact by (unfold SpecFloat.emin, prec, emax; lia).
    repeat split; try lia.
  - lia.
  - assert (Hm : Zpos (Pos.iter xO p k) = Zpos p * 2 ^ Zpos k) by apply iter_xO_mul.
    assert (Hk : Zpos k = 53 - Zpos (digits2_pos p)) by lia.
    assert (H53 : 2 ^ 52 <= Zpos (Pos.iter xO p k) < 2 ^ 53).
    { rewrite Hm. replace 52 with (Zpos (digits2_pos p) - 1 + Zpos k) by lia.
      replace 53 with (Zpos (digits2_pos p) + Zpos k) by lia.
      rewrite !Z.pow_add_r by lia. nia. }
    exists (Pos.iter xO p k), (Zpos (digits2_pos p) - 53).
    rewrite binary_round_aux_exact by (try apply digits2_pos_53; unfold SpecFloat.emin, prec, emax; lia).
    split; [reflexivity |]. split; [apply digits2_pos_53; lia |]. split; [lia |].
    rewrite Hm. f_equal. f_equal. lia.
Qed.

(** The quotient of two 53-bit mantissas, before rounding. *)
Lemma SFdiv_normal (ma mb : positive) (ea eb : Z) :
  Zpos (digits2_pos ma) = 53 -> Zpos (digits2_pos mb) = 53 -> emin + 53 <= ea - eb ->
  exists l, SFdiv prec emax (S754_finite false ma ea) (S754_finite false mb eb) =
    binary_round_aux prec emax false (Zpos ma * 2 ^ 53 / Zpos mb) (ea - eb - 53) l.
Proof.
  intros Ha Hb He. unfold SFdiv, SFdiv_core_binary. cbn [Zdigits2]. rewrite Ha, Hb.
  assert (He' : Z.min (fexp prec emax (53 + ea - (53 + eb))) (ea - eb) = ea - eb - 53).
  { unfold fexp, SpecFloat.emin, prec, emax in *. lia. }
  rewrite He'. replace (ea - eb - (ea - eb - 53)) with 53 by lia.
  rewrite Z.shiftl_mul_pow2 by lia.
  destruct (Z.div_eucl (Zpos ma * 2 ^ 53) (Zpos mb)) as [q r] eqn:E.
  exists (new_location (Zpos mb) r).
  replace (Zpos ma * 2 ^ 53 / Zpos mb) with q; [reflexivity |].
  unfold Z.div. rewrite E. reflexivity.
Qed.

End Normalization.

Section RealPowers.

Local Abbreviation emin := (SpecFloat.emin prec emax).

Local Open Scope R_scope.

Definition bpow (e : Z) : R := powerRZ 2 e.

Lemma bpow_pos (e : Z) : 0 < bpow e.
Proof. apply powerRZ_lt. lra. Qed.

Lemma bpow_add (a b : Z) : bpow (a + b) = bpow a * bpow b.
Proof. apply powerRZ_add. lra. Qed.

Lemma bpow_IZR (k : Z) : (0 <= k)%Z -> bpow k = IZR (2 ^ k).
Proof.
  intros Hk. destruct k as [|p|p]; [reflexivity | | lia].
  unfold bpow. change (2 ^ Zpos p)%Z with (Z.pow_pos 2 p). rewrite Zpower_pos_powerRZ. reflexivity.
Qed.

Lemma bpow_le (a b : Z) : (a <= b)%Z -> bpow a <= bpow b.
Proof.
  intros H. replace b with (a + (b - a))%Z by lia. rewrite bpow_add, (bpow_IZR (b - a)) by lia.
  pose proof (bpow_pos a).
  assert (1 <= IZR (2 ^ (b - a))).
  { apply IZR_le. apply (Z.pow_le_mono_r 2 0); lia. }
  nra.
Qed.

(** From the integer bounds of the rounding to the value. *)
Lemma round_bounds_R (mx ex : Z) (m : positive) (e : Z) (x : R) :
  (ex <= e)%Z ->
  ((Zpos m - 1) * 2 ^ (e - ex) <= mx)%Z -> (mx + 1 <= (Zpos m + 1) * 2 ^ (e - ex))%Z ->
  (2 ^ (e - ex) <= 2 * mx)%Z ->
  IZR mx * bpow ex <= x <= IZR (mx + 1) * bpow ex ->
  Rabs (x - IZR (Zpos m) * bpow e) <= bpow e /\ bpow e <= 2 * x.
Proof.
  intros He H1 H2 H3 Hx.
  replace e with (ex + (e - ex))%Z by lia. rewrite bpow_add, (bpow_IZR (e - ex)) by lia.
  replace (ex + (e - ex))%Z with e by lia.
  set (K := (2 ^ (e - ex))%Z) in *.
  apply IZR_le in H1, H2, H3. rewrite !mult_IZR in H1, H2, H3.
  rewrite minus_IZR in H1. rewrite !plus_IZR in H2. rewrite plus_IZR in Hx.
  pose proof (bpow_pos ex) as HB. set (B := bpow ex) in *. clearbody B K.
  assert (G1 : (IZR (Zpos m) - 1) * IZR K * B <= IZR mx * B) by (apply Rmult_le_compat_r; lra).
  assert (G2 : (IZR mx + 1) * B <= (IZR (Zpos m) + 1) * IZR K * B)
    by (apply Rmult_le_compat_r; lra).
  assert (G3 : IZR K * B <= 2 * IZR mx * B) by (apply Rmult_le_compat_r; lra).
  split; [apply Rabs_le; split |]; nra.
Qed.

End RealPowers.

Section IntegerRatio.

Local Abbreviation emin := (SpecFloat.emin prec emax).

Lemma valid_finite (s : bool) (m : positive) (e : Z) :
  valid_binary (S754_finite s m e) = true ->
  (Zpos m < 2 ^ 53 /\ -1074 <= e <= 971 /\ (e = -1074 \/ 2 ^ 52 <= Zpos m))%Z.
Proof.
  cbn [SpecFloat.valid_binary]. unfold bounded, canonical_mantissa.
  intros H. apply andb_prop in H as [H1 H2].
  apply Z.eqb_eq in H1. apply Z.leb_le in H2.
  pose proof (digits2_pos_bounds m) as [Hlo Hhi].
  unfold fexp, SpecFloat.emin, prec, emax in *.
  set (d := Zpos (digits2_pos m)) in *. clearbody d.
  assert (d <= 53)%Z by lia.
  split; [| split; [lia |]].
  - eapply Z.lt_le_trans; [exact Hhi | apply Z.pow_le_mono_r; lia].
  - destruct (Z.eq_dec e (-1074)) as [He | He]; [left; exact He | right].
    assert (d = 53)%Z by lia. subst d. exact Hlo.
Qed.

(** [float64(x)] of a positive integer below 2^53 is exact. *)
Lemma float64_of_int_exact (z : Z) :
  (1 <= z < 2 ^ 53)%Z ->
  exists m e, Prim2SF (float64_of_int z) = S754_finite false m e /\
    Zpos (digits2_pos m) = 53%Z /\ (-52 <= e <= 0)%Z /\ Zpos m = (z * 2 ^ (- e))%Z.
Proof.
  intros Hz. unfold float64_of_int.
  replace (z =? - 2 ^ 63)%Z with false by (symmetry; apply Z.eqb_neq; lia).
  replace (z <? 0)%Z with false by (symmetry; apply Z.ltb_ge; lia).
  rewrite of_uint63_spec, Uint63.of_Z_spec, Z.mod_small by (change wB with (2 ^ 63)%Z; lia).
  apply binary_normalize_int. exact Hz.
Qed.

Local Open Scope R_scope.

Lemma value_of_int (z : Z) (m : positive) (e : Z) :
  Zpos m = (z * 2 ^ (- e))%Z -> (e <= 0)%Z -> IZR (Zpos m) * bpow e = IZR z.
Proof.
  intros Hm He. rewrite Hm, mult_IZR, <- bpow_IZR by lia.
  rewrite Rmult_assoc, <- bpow_add. replace (- e + e)%Z with 0%Z by lia.
  cbn. ring.
Qed.

(** The quotient [float64(w) / float64(h)] of two positive 32-bit sizes
    is a normal float within one unit in its last place of [w / h]. *)
Lemma ratio_float (w h : Z) :
  (1 <= w <= 2 ^ 32)%Z -> (1 <= h <= 2 ^ 32)%Z ->
  exists m e, Prim2SF (float64_of_int w / float64_of_int h) = S754_finite false m e /\
    Rabs (IZR w / IZR h - IZR (Zpos m) * bpow e) <= bpow e /\
    IZR (2 ^ 52) * bpow e <= IZR (Zpos m) * bpow e.
Proof.
  intros Hw Hh.
  destruct (float64_of_int_exact w ltac:(lia)) as (ma & ea & Ha & Hda & Hea & Hma).
  destruct (float64_of_int_exact h ltac:(lia)) as (mb & eb & Hb & Hdb & Heb & Hmb).
  pose proof (Prim2SF_valid (float64_of_int w / float64_of_int h)) as Hv.
  rewrite div_spec, Ha, Hb in Hv |- *. unfold SF64div in Hv |- *.
  destruct (SFdiv_normal ma mb ea eb Hda Hdb ltac:(unfold SpecFloat.emin, prec, emax; lia))
    as [l Hl]. rewrite Hl in Hv |- *.
  pose proof (digits2_pos_bounds ma) as Hba. pose proof (digits2_pos_bounds mb) as Hbb.
  rewrite Hda in Hba. rewrite Hdb in Hbb. cbn in Hba, Hbb.
  set (q := (Zpos ma * 2 ^ 53 / Zpos mb)%Z).
  assert (Hq1 : (2 ^ 52 <= q)%Z).
  { apply Z.div_le_lower_bound; lia. }
  assert (Hq2 : (q < 2 ^ 54)%Z).
  { apply Z.div_lt_upper_bound; lia. }
  assert (Hqlo : (q * Zpos mb <= Zpos ma * 2 ^ 53)%Z).
  { rewrite Z.mul_comm. apply Z.mul_div_le. lia. }
  assert (Hqhi : (Zpos ma * 2 ^ 53 < (q + 1) * Zpos mb)%Z).
  { pose proof (Z.mul_succ_div_gt (Zpos ma * 2 ^ 53) (Zpos mb) ltac:(lia)) as Hs.
    fold q in Hs. lia. }
  destruct (binary_round_aux_spec false q (ea - eb - 53) l ltac:(lia)
              ltac:(unfold SpecFloat.emin, prec, emax; lia))
    as (m & e & He & H1 & H2 & H3 & Hr).
  assert (Hemax : (e <= 56)%Z).
  { destruct (Z.le_gt_cases e 56) as [H | H]; [exact H |].
    assert (2 ^ 56 <= 2 ^ (e - (ea - eb - 53)))%Z by (apply Z.pow_le_mono_r; lia). lia. }
  rewrite Hr. replace (e <=? emax - prec)%Z with true
    by (symmetry; apply Z.leb_le; unfold prec, emax; lia).
  exists m, e. split; [reflexivity |].
  (* the exact quotient lies between [q] and [q + 1] units of [2^(ea-eb-53)] *)
  assert (Hx : IZR q * bpow (ea - eb - 53) <= IZR w / IZR h <= IZR (q + 1) * bpow (ea - eb - 53)).
  { rewrite <- (value_of_int w ma ea Hma ltac:(lia)), <- (value_of_int h mb eb Hmb ltac:(lia)).
    assert (HP : bpow ea = bpow (ea - eb - 53) * IZR (2 ^ 53) * bpow eb).
    { rewrite <- bpow_IZR by lia. rewrite <- !bpow_add. f_equal. lia. }
    pose proof (bpow_pos (ea - eb - 53)). pose proof (bpow_pos eb).
    apply IZR_le in Hqlo. apply IZR_lt in Hqhi. rewrite !mult_IZR in Hqlo, Hqhi.
    rewrite plus_IZR in Hqhi |- *.
    rewrite HP. set (E := bpow (ea - eb - 53)) in *. set (Q := bpow eb) in *.
    set (A := IZR (Zpos ma)) in *. set (B := IZR (Zpos mb)) in *.
    set (P := IZR (2 ^ 53)) in *. set (Qz := IZR q) in *.
    assert (HB : 0 < B) by (unfold B; apply IZR_lt; lia).
    assert (Heq : A * (E * P * Q) / (B * Q) = (A * P / B) * E) by (field; lra).
    rewrite Heq.
    assert (Qz <= A * P / B) by (apply Rmult_le_reg_r with B; [lra |];
                                 unfold Rdiv; rewrite Rmult_assoc, Rinv_l; lra).
    assert (A * P / B <= Qz + 1) by (apply Rmult_le_reg_r with B; [lra |];
                                     unfold Rdiv; rewrite Rmult_assoc, Rinv_l; lra).
    split; apply Rmult_le_compat_r; lra. }
  destruct (round_bounds_R q (ea - eb - 53) m e (IZR w / IZR h) He H1 H2 H3 Hx) as [Hab _].
  split; [exact Hab |].
  fold q in Hv. rewrite Hr in Hv. replace (e <=? emax - prec)%Z with true in Hv
    by (symmetry; apply Z.leb_le; unfold prec, emax; lia).
  destruct (valid_finite false m e Hv) as (_ & _ & [Hmin | Hnorm]); [lia |].
  apply Rmult_le_compat_r; [apply Rlt_le, bpow_pos | apply IZR_le; exact Hnorm].
Qed.

End IntegerRatio.

Section Subtraction.

Local Abbreviation emin := (SpecFloat.emin prec emax).

Lemma shl_align_spec (mx : positive) (ex ex' : Z) :
  snd (shl_align mx ex ex') = Z.min ex ex' /\
  Zpos (fst (shl_align mx ex ex')) = (Zpos mx * 2 ^ (ex - snd (shl_align mx ex ex')))%Z.
Proof.
  unfold shl_align. destruct (ex' - ex)%Z as [|d|d] eqn:E; cbn [fst snd].
  - split; [lia |]. rewrite Z.sub_diag. lia.
  - split; [lia |]. rewrite Z.sub_diag. lia.
  - split; [lia |]. replace (ex - ex')%Z with (Zpos d) by lia. exact (iter_xO_mul mx d).
Qed.

Local Open Scope R_scope.

(** Rounding an exact positive integer multiple of a power of two. *)
Lemma binary_round_spec (sx : bool) (p : positive) (ex : Z) :
  (emin <= ex)%Z ->
  exists m e, binary_round prec emax sx p ex =
      (if (e <=? emax - prec)%Z then S754_finite sx m e else S754_infinity sx) /\
    Rabs (IZR (Zpos p) * bpow ex - IZR (Zpos m) * bpow e) <= bpow e /\
    bpow e <= 2 * (IZR (Zpos p) * bpow ex).
Proof.
  intros Hex. unfold binary_round.
  destruct (shl_align_spec p ex (fexp prec emax (Zpos (digits2_pos p) + ex))) as [He Hm].
  destruct (shl_align p ex (fexp prec emax (Zpos (digits2_pos p) + ex))) as [mz ez].
  cbn [fst snd] in He, Hm.
  assert (Hez : (emin <= ez)%Z).
  { rewrite He. unfold fexp. lia. }
  destruct (binary_round_aux_spec sx (Zpos mz) ez loc_Exact ltac:(lia) Hez)
    as (m & e & Hle & H1 & H2 & H3 & Hr).
  assert (Hval : IZR (Zpos mz) * bpow ez = IZR (Zpos p) * bpow ex).
  { rewrite Hm, mult_IZR, <- bpow_IZR by lia. rewrite Rmult_assoc, <- bpow_add.
    f_equal. f_equal. lia. }
  exists m, e. split; [exact Hr |].
  rewrite <- Hval. apply round_bounds_R with (Zpos mz) ez; try assumption.
  rewrite plus_IZR. pose proof (bpow_pos ez). split; nra.
Qed.

Lemma bpow_IZR_neg (k : Z) : (0 <= k)%Z -> bpow (- k) = / IZR (2 ^ k).
Proof.
  intros Hk. rewrite <- bpow_IZR by exact Hk. unfold bpow. apply powerRZ_neg'.
Qed.

(** [math.Abs(a - b)] of two positive finite floats. *)
Lemma abs_sub_float (x y : float) (mr mt : positive) (er et : Z) :
  Prim2SF x = S754_finite false mr er -> Prim2SF y = S754_finite false mt et ->
  Rabs (IZR (Zpos mr) * bpow er - IZR (Zpos mt) * bpow et) <= bpow 900 ->
  (Prim2SF (go_abs (x - y)) = S754_zero false /\
     IZR (Zpos mr) * bpow er - IZR (Zpos mt) * bpow et = 0) \/
  exists m e, Prim2SF (go_abs (x - y)) = S754_finite false m e /\
    Rabs (Rabs (IZR (Zpos mr) * bpow er - IZR (Zpos mt) * bpow et) - IZR (Zpos m) * bpow e)
      <= bpow e.
Proof.
  intros Hx Hy Hbig.
  pose proof (Prim2SF_valid x) as Vx. pose proof (Prim2SF_valid y) as Vy.
  rewrite Hx in Vx. rewrite Hy in Vy.
  destruct (valid_finite _ _ _ Vx) as (_ & Her & _).
  destruct (valid_finite _ _ _ Vy) as (_ & Het & _).
  unfold go_abs. rewrite abs_spec, sub_spec, Hx, Hy. unfold SF64sub, SFsub. cbn [cond_Zopp].
  set (ez := Z.min er et).
  destruct (shl_align_spec mr er ez) as [E1 H1].
  destruct (shl_align_spec mt et ez) as [E2 H2].
  replace (Z.min er ez) with ez in E1 by lia. replace (Z.min et ez) with ez in E2 by lia.
  rewrite E1 in H1. rewrite E2 in H2. rewrite H1, H2.
  assert (HD : IZR (Zpos mr) * bpow er - IZR (Zpos mt) * bpow et =
               IZR (Zpos mr * 2 ^ (er - ez) - Zpos mt * 2 ^ (et - ez)) * bpow ez).
  { rewrite minus_IZR, !mult_IZR, <- !bpow_IZR by lia.
    rewrite Rmult_minus_distr_r, !Rmult_assoc, <- !bpow_add.
    replace (er - ez + ez)%Z with er by lia. replace (et - ez + ez)%Z with et by lia.
    reflexivity. }
  rewrite HD in Hbig |- *.
  destruct (Zpos mr * 2 ^ (er - ez) - Zpos mt * 2 ^ (et - ez))%Z as [|p|p];
    cbn [binary_normalize].
  - left. split; [reflexivity | cbn; ring].
  - right. destruct (binary_round_spec false p ez ltac:(unfold ez, SpecFloat.emin, prec, emax; lia)) as (m & e & Hr & Hb & He).
    assert (Hemax : (e <= emax - prec)%Z).
    { destruct (Z.le_gt_cases e (emax - prec)) as [H | H]; [exact H | exfalso].
      assert (Hb9 : bpow 902 <= bpow e) by (apply bpow_le; unfold prec, emax in H; lia).
      rewrite Rabs_pos_eq in Hbig by (pose proof (bpow_pos ez); apply Rmult_le_pos; [apply IZR_le; lia | lra]).
      replace 902%Z with (900 + 2)%Z in Hb9 by reflexivity. rewrite bpow_add in Hb9.
      pose proof (bpow_pos 900).
      rewrite (bpow_IZR 2) in Hb9 by lia. replace (IZR (2 ^ 2)) with 4 in Hb9 by reflexivity. lra. }
    rewrite Hr. apply Z.leb_le in Hemax. rewrite Hemax. cbn [SFabs].
    exists m, e. split; [reflexivity |].
    rewrite (Rabs_pos_eq (IZR (Zpos p) * bpow ez)) by (pose proof (bpow_pos ez); apply Rmult_le_pos; [apply IZR_le; lia | lra]).
    exact Hb.
  - right. destruct (binary_round_spec true p ez ltac:(unfold ez, SpecFloat.emin, prec, emax; lia)) as (m & e & Hr & Hb & He).
    assert (Habs : Rabs (IZR (Zneg p) * bpow ez) = IZR (Zpos p) * bpow ez).
    { rewrite Rabs_mult, (Rabs_pos_eq (bpow ez)) by (apply Rlt_le, bpow_pos).
      rewrite <- abs_IZR. reflexivity. }
    rewrite Habs in Hbig |- *.
    assert (Hemax : (e <= emax - prec)%Z).
    { destruct (Z.le_gt_cases e (emax - prec)) as [H | H]; [exact H | exfalso].
      assert (Hb9 : bpow 902 <= bpow e) by (apply bpow_le; unfold prec, emax in H; lia).
      replace 902%Z with (900 + 2)%Z in Hb9 by reflexivity. rewrite bpow_add in Hb9.
      pose proof (bpow_pos 900).
      rewrite (bpow_IZR 2) in Hb9 by lia. replace (IZR (2 ^ 2)) with 4 in Hb9 by reflexivity. lra. }
    rewrite Hr. apply Z.leb_le in Hemax. rewrite Hemax. cbn [SFabs].
    exists m, e. split; [reflexivity | exact Hb].
Qed.

End Subtraction.

Section Comparison.

Local Open Scope R_scope.

Lemma val_lt_of_exp_lt (s1 s2 : bool) (m1 m2 : positive) (e1 e2 : Z) :
  valid_binary (S754_finite s1 m1 e1) = true -> valid_binary (S754_finite s2 m2 e2) = true ->
  (e1 < e2)%Z -> IZR (Zpos m1) * bpow e1 < IZR (Zpos m2) * bpow e2.
Proof.
  intros V1 V2 He.
  destruct (valid_finite _ _ _ V1) as (Hm1 & He1 & _).
  destruct (valid_finite _ _ _ V2) as (_ & He2 & [Hmin | Hm2]); [lia |].
  apply Rlt_le_trans with (IZR (2 ^ 53) * bpow e1).
  { apply Rmult_lt_compat_r; [apply bpow_pos | apply IZR_lt; exact Hm1]. }
  apply Rle_trans with (IZR (2 ^ 52) * bpow e2).
  2: { apply Rmult_le_compat_r; [apply Rlt_le, bpow_pos | apply IZR_le; exact Hm2]. }
  rewrite <- !bpow_IZR by lia. rewrite <- !bpow_add. apply bpow_le. lia.
Qed.

(** [<=] on two positive finite floats follows their values. *)
Lemma leb_finite (x y : float) (m1 m2 : positive) (e1 e2 : Z) :
  Prim2SF x = S754_finite false m1 e1 -> Prim2SF y = S754_finite false m2 e2 ->
  (IZR (Zpos m1) * bpow e1 < IZR (Zpos m2) * bpow e2 -> (x <=? y)%float = true) /\
  (IZR (Zpos m2) * bpow e2 < IZR (Zpos m1) * bpow e1 -> (x <=? y)%float = false).
Proof.
  intros Hx Hy.
  pose proof (Prim2SF_valid x) as V1. pose proof (Prim2SF_valid y) as V2.
  rewrite Hx in V1. rewrite Hy in V2.
  rewrite leb_spec, Hx, Hy. unfold SFleb, SFcompare.
  destruct (Z.compare_spec e1 e2) as [<- | Hlt | Hgt].
  - change (PosDef.Pos.compare_cont Eq m1 m2) with (Pos.compare m1 m2).
    pose proof (bpow_pos e1) as Hb.
    destruct (Pos.compare_spec m1 m2) as [<- | Hm | Hm]; split; intros Hv;
      first [ reflexivity | lra | (apply Pos2Z.pos_lt_pos, IZR_lt in Hm; nra) ].
  - pose proof (val_lt_of_exp_lt _ _ _ _ _ _ V1 V2 Hlt). split; intros Hv; [reflexivity | lra].
  - pose proof (val_lt_of_exp_lt _ _ _ _ _ _ V2 V1 Hgt). split; intros Hv; [lra | reflexivity].
Qed.

Lemma leb_zero (x y : float) (m2 : positive) (e2 : Z) :
  Prim2SF x = S754_zero false -> Prim2SF y = S754_finite false m2 e2 ->
  (x <=? y)%float = true.
Proof. intros Hx Hy. rewrite leb_spec, Hx, Hy. reflexivity. Qed.

(** The real-number core: every rounding error in [|w/h - t| <= c] is far
    below the distance [g] of [w/h] from the edges of the band. *)
Lemma band_real (x r tv t cv c dv D tiny g : R) :
  0 < x -> 0 <= r ->
  Rabs (x - r) <= r / 4503599627370496 ->
  Rabs (tv - t) <= / 4503599627370496 -> Rabs (cv - c) <= / 4503599627370496 ->
  1 / 2 <= t <= 2 -> 1 / 50 <= c <= 1 / 10 ->
  D = r - tv -> 0 <= dv -> 0 <= tiny <= / 4503599627370496 ->
  Rabs (Rabs D - dv) <= dv / 4503599627370496 + tiny ->
  / 2199023255552 <= g ->
  (Rabs (x - t) <= c - g -> dv < cv) /\ (c + g <= Rabs (x - t) -> cv < dv).
Proof.
  intros Hx Hr Hxr Ht Hc Ht' Hc' HD Hdv Htiny Hd Hg. subst D.
  revert Hxr Ht Hc Hd. unfold Rabs.
  destruct (Rcase_abs (x - r)); destruct (Rcase_abs (tv - t)); destruct (Rcase_abs (cv - c));
    destruct (Rcase_abs (r - tv)); destruct (Rcase_abs (x - t));
    try destruct (Rcase_abs (- (r - tv) - dv)); try destruct (Rcase_abs (r - tv - dv));
    intros; split; intros; lra.
Qed.

End Comparison.

Section Bands.

Local Open Scope R_scope.

(** Off the edge, [w/h] lies at least [2^-41] inside or outside the exact
    band: [20 |w q - p h|] and [p h] are integers that differ, and
    [q h <= 2^36]. *)
Lemma exact_band_R (w h p q : Z) :
  (1 <= h <= 2 ^ 32)%Z -> (1 <= q <= 16)%Z -> (1 <= p)%Z ->
  on_edge w h p q = false ->
  (in_band_exact w h p q = true ->
     Rabs (IZR w / IZR h - IZR p / IZR q) <= IZR p / IZR q / 20 - / 2199023255552) /\
  (in_band_exact w h p q = false ->
     IZR p / IZR q / 20 + / 2199023255552 <= Rabs (IZR w / IZR h - IZR p / IZR q)).
Proof.
  intros Hh Hq Hp Hedge. unfold in_band_exact. unfold on_edge in Hedge.
  apply Z.eqb_neq in Hedge.
  assert (HK : (1 <= q * h <= 68719476736)%Z) by nia.
  assert (HKR : 1 <= IZR q * IZR h <= 68719476736).
  { rewrite <- mult_IZR. split; apply IZR_le; lia. }
  set (iK := / (IZR q * IZR h)).
  assert (HiK : / 68719476736 <= iK).
  { unfold iK. apply Rinv_le_contravar; lra. }
  assert (HKiK : IZR q * IZR h * iK = 1) by (unfold iK; apply Rinv_r; lra).
  assert (Hq0 : IZR q <> 0) by (apply not_0_IZR; lia).
  assert (Hh0 : IZR h <> 0) by (apply not_0_IZR; lia).
  assert (Hx : Rabs (IZR w / IZR h - IZR p / IZR q) = IZR (Z.abs (w * q - p * h)) * iK).
  { rewrite abs_IZR.
    replace (IZR w / IZR h - IZR p / IZR q) with (IZR (w * q - p * h) * iK).
    - rewrite Rabs_mult, (Rabs_pos_eq iK); [reflexivity |].
      unfold iK. apply Rlt_le, Rinv_0_lt_compat. lra.
    - unfold iK. rewrite minus_IZR, !mult_IZR. field. split; assumption. }
  assert (Hc : IZR p / IZR q / 20 = IZR (p * h) * iK / 20).
  { unfold iK. rewrite mult_IZR. field. split; assumption. }
  rewrite Hx, Hc.
  set (A := Z.abs (w * q - p * h)) in *.
  split; intros Hb.
  - apply Z.leb_le in Hb.
    assert (Hz : (20 * A <= p * h - 1)%Z) by lia.
    apply IZR_le in Hz. rewrite minus_IZR, (mult_IZR 20) in Hz.
    assert (0 <= (IZR (p * h) - 1 - 20 * IZR A) * iK) by (apply Rmult_le_pos; lra).
    lra.
  - apply Z.leb_gt in Hb.
    assert (Hz : (p * h + 1 <= 20 * A)%Z) by lia.
    apply IZR_le in Hz. rewrite plus_IZR, (mult_IZR 20) in Hz.
    assert (0 <= (20 * IZR A - IZR (p * h) - 1) * iK) by (apply Rmult_le_pos; lra).
    lra.
Qed.

Lemma bpow_neg52 : bpow (-52) = / 4503599627370496.
Proof. change (-52)%Z with (Z.opp 52). rewrite bpow_IZR_neg by lia. reflexivity. Qed.

(** One band test of [classify], for a target [T] and a limit [Cf] that lie
    within [2^-52] of [p/q] and [p/q/20], agrees with the exact test. *)
Lemma band_float (w h p q : Z) (T Cf : float) (mT mC : positive) (eT eC : Z) :
  (1 <= w <= 2 ^ 32)%Z -> (1 <= h <= 2 ^ 32)%Z -> (1 <= q <= 16)%Z -> (1 <= p)%Z ->
  1 / 2 <= IZR p / IZR q <= 2 -> 1 / 50 <= IZR p / IZR q / 20 <= 1 / 10 ->
  Prim2SF T = S754_finite false mT eT -> Prim2SF Cf = S754_finite false mC eC ->
  Rabs (IZR (Zpos mT) * bpow eT - IZR p / IZR q) <= / 4503599627370496 ->
  Rabs (IZR (Zpos mC) * bpow eC - IZR p / IZR q / 20) <= / 4503599627370496 ->
  on_edge w h p q = false ->
  (go_abs (float64_of_int w / float64_of_int h - T) <=? Cf)%float = in_band_exact w h p q.
Proof.
  intros Hw Hh Hq Hp Ht Hc HT HC HTv HCv Hedge.
  destruct (exact_band_R w h p q Hh Hq Hp Hedge) as [Hin Hout].
  destruct (ratio_float w h Hw Hh) as (m & e & Hr & Hab & Hn).
  assert (Hx0 : 0 < IZR w / IZR h).
  { apply Rdiv_lt_0_compat; apply IZR_lt; lia. }
  assert (Hx1 : IZR w / IZR h <= 4294967296).
  { apply Rle_trans with (IZR w).
    - unfold Rdiv. pattern (IZR w) at 2. rewrite <- Rmult_1_r.
      apply Rmult_le_compat_l; [apply IZR_le; lia |].
      rewrite <- Rinv_1. apply Rinv_le_contravar; [lra | apply IZR_le; lia].
    - apply IZR_le. lia. }
  assert (He52 : bpow e <= IZR (Zpos m) * bpow e / 4503599627370496).
  { replace (IZR (2 ^ 52)) with 4503599627370496 in Hn by reflexivity. lra. }
  assert (Hmv : 0 <= IZR (Zpos m) * bpow e).
  { pose proof (bpow_pos e). apply Rmult_le_pos; [apply IZR_le; lia | lra]. }
  assert (Hb40 : 1099511627776 <= bpow 900).
  { replace 1099511627776 with (IZR (2 ^ 40)) by reflexivity.
    rewrite <- bpow_IZR by lia. apply bpow_le. lia. }
  assert (Htv : 0 <= IZR (Zpos mT) * bpow eT).
  { pose proof (bpow_pos eT). apply Rmult_le_pos; [apply IZR_le; lia | lra]. }
  assert (Htiny : 0 <= bpow (-1074) <= / 4503599627370496).
  { rewrite <- bpow_neg52. split; [apply Rlt_le, bpow_pos | apply bpow_le; lia]. }
  assert (HD : Rabs (IZR (Zpos m) * bpow e - IZR (Zpos mT) * bpow eT) <= bpow 900).
  { revert Hab HTv. unfold Rabs.
    destruct (Rcase_abs (IZR w / IZR h - IZR (Zpos m) * bpow e));
      destruct (Rcase_abs (IZR (Zpos mT) * bpow eT - IZR p / IZR q));
      destruct (Rcase_abs (IZR (Zpos m) * bpow e - IZR (Zpos mT) * bpow eT)); intros; lra. }
  destruct (abs_sub_float _ _ _ _ _ _ Hr HT HD) as [[Hz HDz] | (md & ed & Hd & Hdv)].
  - rewrite (leb_zero _ _ _ _ Hz HC).
    destruct (in_band_exact w h p q) eqn:Eb; [reflexivity |].
    exfalso.
    destruct (band_real (IZR w / IZR h) (IZR (Zpos m) * bpow e) (IZR (Zpos mT) * bpow eT)
                (IZR p / IZR q) (IZR (Zpos mC) * bpow eC) (IZR p / IZR q / 20) 0
                (IZR (Zpos m) * bpow e - IZR (Zpos mT) * bpow eT) (bpow (-1074))
                (/ 2199023255552)) as [_ Ho];
      try lra; try (rewrite Rabs_minus_sym; lra); try (rewrite HDz, Rabs_R0, Rminus_0_r, Rabs_R0; lra).
    pose proof (Ho (Hout eq_refl)).
      pose proof (bpow_pos eC). assert (0 <= IZR (Zpos mC) * bpow eC).
      { apply Rmult_le_pos; [apply IZR_le; lia | lra]. } lra.
  - pose proof (leb_finite _ _ _ _ _ _ Hd HC) as Hleb.
    pose proof (Prim2SF_valid (go_abs (float64_of_int w / float64_of_int h - T))) as Vd.
    rewrite Hd in Vd.
    destruct (valid_finite _ _ _ Vd) as (_ & Hed & Hnd).
    assert (Hdn : bpow ed <= IZR (Zpos md) * bpow ed / 4503599627370496 + bpow (-1074)).
    { pose proof (bpow_pos ed).
      assert (0 <= IZR (Zpos md) * bpow ed) by (apply Rmult_le_pos; [apply IZR_le; lia | lra]).
      destruct Hnd as [-> | Hnd]; [lra |].
      apply IZR_le in Hnd. replace (IZR (2 ^ 52)) with 4503599627370496 in Hnd by reflexivity.
      assert (4503599627370496 * bpow ed <= IZR (Zpos md) * bpow ed)
        by (apply Rmult_le_compat_r; lra). lra. }
    assert (Hdv0 : 0 <= IZR (Zpos md) * bpow ed).
    { pose proof (bpow_pos ed). apply Rmult_le_pos; [apply IZR_le; lia | lra]. }
    destruct (band_real (IZR w / IZR h) (IZR (Zpos m) * bpow e) (IZR (Zpos mT) * bpow eT)
                (IZR p / IZR q) (IZR (Zpos mC) * bpow eC) (IZR p / IZR q / 20)
                (IZR (Zpos md) * bpow ed)
                (IZR (Zpos m) * bpow e - IZR (Zpos mT) * bpow eT) (bpow (-1074))
                (/ 2199023255552)) as [Hi Ho];
      try lra; try (rewrite Rabs_minus_sym; lra).
    destruct (in_band_exact w h p q) eqn:Eb.
    + apply Hleb. apply Hi, Hin. reflexivity.
    + apply Hleb. apply Ho, Hout. reflexivity.
Qed.

End Bands.

Section Targets.

Local Open Scope R_scope.

Lemma bpow_neg_lit (k : positive) (v : R) : IZR (2 ^ Zpos k) = v -> bpow (Zneg k) = / v.
Proof. intros <-. change (Zneg k) with (- Zpos k)%Z. apply bpow_IZR_neg. lia. Qed.

(** The two band tests of [classify] with the float64 values of [16/9],
    [9/16] and [0.05]: off the edges the float and exact answers agree. *)
Lemma classify_agrees_32 (width height : Z) :
  (1 <= width <= 2 ^ 32)%Z -> (1 <= height <= 2 ^ 32)%Z ->
  on_edge width height 16 9 = false -> on_edge width height 9 16 = false ->
  classify_ratio width height = classify_exact width height.
Proof.
  intros Hw Hh E1 E2. unfold classify_ratio, classify_exact. cbv zeta.
  rewrite (band_float width height 16 9 landscapeTarget (landscapeTarget * tolerance)
             8006399337547548 6405119470038039 (-52) (-56)),
          (band_float width height 9 16 portraitTarget (portraitTarget * tolerance)
             5066549580791808 8106479329266893 (-53) (-58));
    try assumption; try lia; try (vm_compute; reflexivity);
    try (split; lra).
  all: first [ rewrite (bpow_neg_lit 58 288230376151711744) by reflexivity
              | rewrite (bpow_neg_lit 53 9007199254740992) by reflexivity
              | rewrite (bpow_neg_lit 56 72057594037927936) by reflexivity
              | rewrite (bpow_neg_lit 52 4503599627370496) by reflexivity ].
  all: apply Rabs_le; split; lra.
Qed.

End Targets.

End FloatBands.

(** Float and exact classification agree off the band edges, for all
    widths and heights in [1..2^32]. *)
Lemma classify_agrees (w h : Z) :
  1 <= w <= 2 ^ 32 -> 1 <= h <= 2 ^ 32 ->
  on_edge w h 16 9 = false -> on_edge w h 9 16 = false ->
  classify w h = classify_exact w h.
Proof. exact (FloatBands.classify_agrees_32 w h). Qed.

Lemma first_video_unique (l : list stream) (s s' : stream) :
  first_video l s -> first_video l s' -> s = s'.
Proof.
  intros (pre & post & E & Hpre & Hs) (pre' & post' & E' & Hpre' & Hs').
  subst l. revert pre' E' Hpre'.
  induction pre as [|t pre IH]; intros [|t' pre'] E' Hpre'; cbn in E'.
  - congruence.
  - injection E' as -> _. inversion Hpre'; contradiction.
  - injection E' as <- _. inversion Hpre; contradiction.
  - injection E' as <- E'. inversion Hpre; inversion Hpre'; subst.
    eapply IH; eauto.
Qed.

Lemma first_video_dims_spec (l : list stream) :
  (exists s, first_video l s /\ first_video_dims l = (Width s, Height s)) \/
  ((forall s, ~ first_video l s) /\ first_video_dims l = (0, 0)).
Proof.
  induction l as [|t l IH].
  - right. split; [| reflexivity].
    intros s (pre & post & E & _). destruct pre; discriminate.
  - cbn [first_video_dims]. destruct (String.eqb_spec (CodecType t) "video") as [Ht | Ht].
    + left. exists t. split; [| reflexivity]. exists [], l. auto.
    + destruct IH as [(s & (pre & post & E & Hpre & Hs) & Hd) | (Hn & Hd)].
      * left. exists s. split; [| exact Hd].
        exists (t :: pre), post. subst l. split; [reflexivity |]. auto.
      * right. split; [| exact Hd].
        intros s (pre & post & E & Hpre & Hs).
        destruct pre as [|t' pre]; cbn in E; injection E as -> E.
        { contradiction. }
        inversion Hpre; subst. apply (Hn s). exists pre, post. auto.
Qed.

Lemma list_ascii_of_string_append (s1 s2 : string) :
  list_ascii_of_string (s1 ++ s2) = (list_ascii_of_string s1 ++ list_ascii_of_string s2)%list.
Proof. induction s1 as [|c s1 IH]; simpl; [reflexivity | f_equal; exact IH]. Qed.

Lemma length_string_of_list_ascii (l : list ascii) :
  String.length (string_of_list_ascii l) = length l.
Proof. induction l as [|c l IH]; simpl; [reflexivity | f_equal; exact IH]. Qed.

Lemma objectKey_inj (aspect : string) (a b : list Z) :
  Forall is_byte a -> Forall is_byte b -> objectKey aspect a = objectKey aspect b -> a = b.
Proof.
  intros Ha Hb E. apply (f_equal list_ascii_of_string) in E.
  unfold objectKey, EncodeToString in E. rewrite !list_ascii_of_string_append in E.
  apply app_inv_head in E. cbn [list_ascii_of_string app] in E.
  injection E as E. apply app_inv_tail in E.
  rewrite !list_ascii_of_string_of_list_ascii in E.
  apply encode_raw_url_inj; assumption.
Qed.

Lemma cut_comma_cons (c : ascii) (s : string) :
  cut_comma (String c s) =
    if Ascii.eqb c ","%char then Some (EmptyString, s)
    else match cut_comma s with Some (a, b) => Some (String c a, b) | None => None end.
Proof. reflexivity. Qed.

Lemma cut_comma_locator (bucket key : string) :
  has_comma bucket = false -> cut_comma (locator bucket key) = Some (bucket, key).
Proof.
  unfold locator, has_comma. induction bucket as [|c bucket IH]; intros H.
  - reflexivity.
  - cbn [list_ascii_of_string existsb] in H. apply orb_false_iff in H as [Hc H].
    change (String c bucket ++ "," ++ key) with (String c (bucket ++ "," ++ key)).
    rewrite cut_comma_cons, Ascii.eqb_sym, Hc, IH by exact H. reflexivity.
Qed.

Lemma locator_nonempty (bucket key : string) : String.eqb (locator bucket key) "" = false.
Proof. destruct bucket; reflexivity. Qed.

Lemma classify_class (w h : Z) :
  classify w h = "landscape" \/ classify w h = "portrait" \/ classify w h = "other".
Proof. unfold classify. repeat destruct (_ <=? _)%float; auto. Qed.

Lemma getVideoAspectRatio_class (p : probe_out) (aspect : string) :
  getVideoAspectRatio p = inl aspect ->
  aspect = "landscape" \/ aspect = "portrait" \/ aspect = "other".
Proof.
  unfold getVideoAspectRatio. destruct (probe_dims p) as [[w h] | e]; [| discriminate].
  intros E. injection E as <-. apply classify_class.
Qed.

(* ================================================================== *)
(** ** The claims                                                       *)
(* ================================================================== *)

(** Claim C1: a caller who is not the owner of the record is refused with
    401 "Unauthorized access" after the one metadata read: no file is
    created, no tool runs, nothing is stored or updated; the only event of
    the run is the read of the record. *)
Theorem C1_non_owner_fails_closed (env : Env) (w0 : World) (id t user : string) (v : Video) :
  req_videoID env = Some id -> req_token env = Some t ->
  validateJWT env t (cfg_jwtSecret env) = Some user ->
  db_error env = false -> db w0 !! id = Some v -> UserID v <> user ->
  let '(r, w1) := uploadVideo env w0 in
  status r = StatusUnauthorized /\ body r = BodyError "Unauthorized access" /\
  fs w1 = fs w0 /\ s3 w1 = s3 w0 /\ db w1 = db w0 /\
  log w1 = (log w0 ++ [EGetVideo id])%list.
Proof.
  intros Hid Htok Hjwt Hdb Hv Hown. unfold_handler. apply String.eqb_neq in Hown.
  rewrite Hid, Htok. cbn. rewrite Hjwt. cbn. rewrite Hdb, Hv. cbn. rewrite Hown. cbn.
  repeat split; reflexivity.
Qed.

Lemma C1_witness :
  let '(r, w1) := uploadVideo (sample_env "user-2" 1000 false RemuxOk true) sample_world in
  status r = StatusUnauthorized /\ body r = BodyError "Unauthorized access" /\
  fs w1 = fs sample_world /\ s3 w1 = s3 sample_world /\ db w1 = db sample_world /\
  log w1 = (log sample_world ++ [EGetVideo "vid-1"])%list.
Proof.
  apply (C1_non_owner_fails_closed _ _ "vid-1" "tok" "user-2" sample_video);
    try reflexivity.
  vm_compute. discriminate.
Defined.

(** Claim C2 (divergence): when ffmpeg fails after it has created its
    output file (for instance when the MP4 muxer refuses a stream and
    ffmpeg stops at writing the header), the handler answers 500 "Video
    processing failed" and removes the staged upload, but the remux output
    [<temp>.processing] stays on disk: its removal is only deferred once
    ffmpeg has succeeded. *)
Theorem C2_remux_output_left_on_disk :
  let '(r, w1) :=
    uploadVideo (sample_env "user-1" 1000 false (RemuxFailed true) true) sample_world in
  status r = StatusInternalServerError /\ body r = BodyError "Video processing failed" /\
  fs w1 !! "/tmp/tubely-upload-1.mp4" = None /\
  fs w1 !! "/tmp/tubely-upload-1.mp4.processing" = Some "".
Proof. vm_compute. repeat split; reflexivity. Qed.

(** Claim C3 (corrected): the bands are evaluated in float64 arithmetic,
    landscape before portrait.  For every width and height in 1..2^32
    (4294967296) that is not on the edge of a band the result is the exact
    rational classification [|w/h - t| <= t/20]; 1920x1080 is landscape,
    1080x1920 portrait and 1000x1000 other. *)
Theorem C3_float_bands :
  (forall w h, 1 <= w <= 2 ^ 32 -> 1 <= h <= 2 ^ 32 ->
     on_edge w h 16 9 = false -> on_edge w h 9 16 = false ->
     classify w h = classify_exact w h) /\
  classify 1920 1080 = "landscape" /\ classify 1080 1920 = "portrait" /\
  classify 1000 1000 = "other".
Proof.
  split; [exact classify_agrees |].
  vm_compute. repeat split; reflexivity.
Qed.

Lemma C3_witness :
  classify 3840 2160 = classify_exact 3840 2160 /\ classify 1920 1080 = "landscape".
Proof.
  split.
  - apply (proj1 C3_float_bands 3840 2160); [lia | lia | vm_compute; reflexivity ..].
  - apply (proj1 (proj2 C3_float_bands)).
Defined.

(** Counterexample to C3: 28x15 is exactly on the edge of the landscape
    band, [|28/15 - 16/9| = (16/9) * 0.05]; the exact formula puts it in
    the band, the float64 evaluation does not. *)
Lemma C3_counterexample :
  on_edge 28 15 16 9 = true /\
  classify_exact 28 15 = "landscape" /\ classify 28 15 = "other".
Proof. vm_compute. repeat split; reflexivity. Qed.

(** Claim C4 (corrected): the prober takes the first stream whose codec
    type is "video" and ignores all others; it succeeds with that stream's
    width and height when both are nonzero, and fails with the
    no-video-stream error exactly when there is no video stream or the
    first one has width 0 or height 0. *)
Theorem C4_first_video_stream (l : list stream) :
  (forall w h, probe_dims (ProbeStreams l) = inl (w, h) <->
     exists s, first_video l s /\ Width s = w /\ Height s = h /\ w <> 0 /\ h <> 0) /\
  (probe_dims (ProbeStreams l) = inr ErrNoVideoStream <->
     forall s, first_video l s -> Width s = 0 \/ Height s = 0).
Proof.
  unfold probe_dims.
  destruct (first_video_dims_spec l) as [(s & Hs & ->) | (Hn & ->)].
  - assert (Hu : forall s', first_video l s' -> s' = s)
      by (intros s' Hs'; eapply first_video_unique; eauto).
    destruct ((Width s =? 0) || (Height s =? 0)) eqn:Eb.
    + apply orb_true_iff in Eb. rewrite !Z.eqb_eq in Eb.
      split; [intros w h; split |].
      * discriminate.
      * intros (s' & Hs' & Ew & Eh & Hw & Hh). apply Hu in Hs'. subst s'. lia.
      * split; [| reflexivity]. intros _ s' Hs'. apply Hu in Hs'. subst s'. exact Eb.
    + apply orb_false_iff in Eb. rewrite !Z.eqb_neq in Eb.
      split; [intros w h; split |].
      * intros E. injection E as <- <-. exists s. tauto.
      * intros (s' & Hs' & Ew & Eh & _). apply Hu in Hs'. subst. reflexivity.
      * split; [discriminate |]. intros H. destruct (H s Hs); tauto.
  - split; [intros w h; split |].
    + discriminate.
    + intros (s & Hs & _). exfalso. exact (Hn s Hs).
    + split; [intros _ s Hs; exfalso; exact (Hn s Hs) | reflexivity].
Qed.

Lemma C4_witness :
  probe_dims (ProbeStreams [mk_stream "audio" 0 0; mk_stream "video" 1920 1080])
    = inl (1920, 1080).
Proof.
  apply (proj1 (C4_first_video_stream _) 1920 1080).
  exists (mk_stream "video" 1920 1080). split; [| repeat split; discriminate].
  exists [mk_stream "audio" 0 0], []. split; [reflexivity |].
  split; [| reflexivity]. constructor; [discriminate | constructor].
Defined.

(** Counterexample to C4: the first video stream is 0x0, a later one is
    1920x1080; the prober still reports that there is no video stream. *)
Lemma C4_counterexample :
  probe_dims (ProbeStreams [mk_stream "video" 0 0; mk_stream "video" 1920 1080])
    = inr ErrNoVideoStream.
Proof. reflexivity. Qed.

Lemma thumbnail_by_id_order : file_written_before_record_read ThumbnailByID.run.
Proof.
  intros env w0 r w1 id Hrun Hin.
  unfold ThumbnailByID.run, ThumbnailByID.handlerUploadThumbnail, thumbnailCommit,
    createStep in Hrun.
  unfold_handler. run_all; norm_events.
  all: repeat match goal with H : _ \/ _ |- _ => destruct H as [H | H] end;
    try contradiction; try discriminate.
  all: match goal with H : EGetVideo _ = EGetVideo _ |- _ => injection H; intros; subst end.
  all: do 4 eexists; split; [reflexivity |]; split; [reflexivity |].
  all: split; [simplify_map_eq; reflexivity |].
  all: intros Hb; try discriminate; split; reflexivity.
Qed.

Lemma thumbnail_random_order : file_written_before_record_read ThumbnailRandom.run.
Proof.
  intros env w0 r w1 id Hrun Hin.
  unfold ThumbnailRandom.run, ThumbnailRandom.handlerUploadThumbnail, thumbnailCommit,
    createStep in Hrun.
  unfold_handler. run_all; norm_events.
  all: repeat match goal with H : _ \/ _ |- _ => destruct H as [H | H] end;
    try contradiction; try discriminate.
  all: match goal with H : EGetVideo _ = EGetVideo _ |- _ => injection H; intros; subst end.
  all: do 4 eexists; split; [reflexivity |]; split; [reflexivity |].
  all: split; [simplify_map_eq; reflexivity |].
  all: intros Hb; try discriminate; split; reflexivity.
Qed.

(** Claim C5: a successful upload stores the processed file under the key
    [<class>/<encoded>.mp4], where [<class>] is one of the three aspect
    classes and [<encoded>] is the padding-free URL-safe encoding of the 32
    bytes read from crypto/rand: 43 characters of the URL-safe alphabet.
    Distinct random bytes give distinct keys. *)
Theorem C5_object_key_shape (env : Env) (w0 w1 : World) (r : Response) (bytes : list Z) :
  uploadVideo env w0 = (r, w1) -> status r = StatusOK ->
  randRead env = Some bytes -> length bytes = 32%nat -> Forall is_byte bytes ->
  exists aspect,
    In (EPut (cfg_s3Bucket env) (objectKey aspect bytes)) (new_events w0 w1) /\
    (aspect = "landscape" \/ aspect = "portrait" \/ aspect = "other") /\
    objectKey aspect bytes = aspect ++ "/" ++ EncodeToString bytes ++ ".mp4" /\
    String.length (EncodeToString bytes) = 43%nat /\
    Forall (fun c => url_char c = true) (list_ascii_of_string (EncodeToString bytes)) /\
    (forall bytes', Forall is_byte bytes' ->
       objectKey aspect bytes' = objectKey aspect bytes -> bytes' = bytes).
Proof.
  intros Hrun Hok Hrand Hlen Hbytes.
  unfold_handler. rewrite Hrand in Hrun.
  run_all; norm_events.
  all: try discriminate.
  match goal with H : getVideoAspectRatio _ = inl ?a |- _ =>
    exists a; pose proof (getVideoAspectRatio_class _ _ H) as Hclass end.
  split; [repeat first [left; reflexivity | right] |].
  split; [exact Hclass |]. split; [reflexivity |].
  split; [unfold EncodeToString; rewrite length_string_of_list_ascii;
          apply encode_raw_url_length_32; exact Hlen |].
  split; [unfold EncodeToString; rewrite list_ascii_of_string_of_list_ascii;
          apply encode_raw_url_chars |].
  intros bytes' Hb' E. eapply objectKey_inj; eassumption.
Qed.

Lemma C5_witness :
  exists aspect,
    In (EPut "tubely-bucket" (objectKey aspect sample_bytes))
       (new_events sample_world
          (snd (uploadVideo (sample_env "user-1" 1000 false RemuxOk true) sample_world))) /\
    String.length (EncodeToString sample_bytes) = 43%nat.
Proof.
  destruct (C5_object_key_shape (sample_env "user-1" 1000 false RemuxOk true) sample_world
              (snd (uploadVideo (sample_env "user-1" 1000 false RemuxOk true) sample_world))
              (fst (uploadVideo (sample_env "user-1" 1000 false RemuxOk true) sample_world))
              sample_bytes)
    as (aspect & Hin & _ & _ & Hlen & _).
  - apply surjective_pairing.
  - vm_compute. reflexivity.
  - reflexivity.
  - reflexivity.
  - vm_compute. repeat constructor; discriminate.
  - exists aspect. split; assumption.
Defined.

(** Claim C6 (corrected): for a bucket name without a comma (S3 bucket
    names never hold one) and any key, commas included, the stored
    locator [bucket,key] splits back into exactly [bucket] and [key], and
    the read path presigns exactly that object. *)
Theorem C6_locator_round_trip (bucket key : string)
    (presign : string -> string -> Z -> option string) (video : Video) :
  has_comma bucket = false -> VideoURL video = Some (locator bucket key) ->
  SplitN2 (locator bucket key) = [bucket; key] /\
  dbVideoToSignedVideo presign video =
    match presign bucket key presignExpiry with
    | Some url => (with_video_url video (Some url), None)
    | None => (video, Some "failed to presign URL")
    end.
Proof.
  intros Hb Hv.
  assert (Hs : SplitN2 (locator bucket key) = [bucket; key]).
  { unfold SplitN2. rewrite cut_comma_locator by exact Hb. reflexivity. }
  split; [exact Hs |].
  unfold dbVideoToSignedVideo. rewrite Hv, locator_nonempty, Hs. reflexivity.
Qed.

Lemma C6_witness :
  dbVideoToSignedVideo (fun b k _ => Some (b ++ "/" ++ k))
    (mk_video "vid-1" "user-1" None (Some (locator "tubely-bucket" "landscape/a,b.mp4")))
  = (mk_video "vid-1" "user-1" None (Some "tubely-bucket/landscape/a,b.mp4"), None).
Proof.
  apply (C6_locator_round_trip "tubely-bucket" "landscape/a,b.mp4"); reflexivity.
Defined.

(** Counterexample to C6: a bucket name with a comma does not round-trip;
    the read path presigns a different bucket and key. *)
Lemma C6_counterexample :
  SplitN2 (locator "a,b" "k") = ["a"; "b,k"] /\
  dbVideoToSignedVideo (fun b k _ => Some (b ++ "|" ++ k))
    (mk_video "v" "u" None (Some (locator "a,b" "k")))
  = (mk_video "v" "u" None (Some "a|b,k"), None).
Proof. vm_compute. split; reflexivity. Qed.

(** Claim C7: a record with no locator, or an empty one, is returned
    without error and without a URL, all its other fields unchanged; the
    presigner is not consulted; with no locator the record is returned as
    it is. *)
Theorem C7_no_locator_no_error (presign : string -> string -> Z -> option string)
    (video : Video) :
  VideoURL video = None \/ VideoURL video = Some "" ->
  dbVideoToSignedVideo presign video = (with_video_url video None, None) /\
  (VideoURL video = None -> with_video_url video None = video).
Proof.
  intros Hv. split.
  - unfold dbVideoToSignedVideo. destruct Hv as [-> | ->]; reflexivity.
  - destruct video as [i u t vu]. cbn. intros ->. reflexivity.
Qed.

Lemma C7_witness :
  dbVideoToSignedVideo (fun _ _ _ => None) (mk_video "vid-1" "user-1" None (Some ""))
  = (mk_video "vid-1" "user-1" None None, None).
Proof.
  apply (C7_no_locator_no_error (fun _ _ _ => None) (mk_video "vid-1" "user-1" None (Some ""))).
  right. reflexivity.
Defined.

(** Claim C8 (corrected): when the multipart parser would read more than
    the 1 GiB ceiling of [MaxBytesReader], the request is refused before
    the full body is buffered to disk ([MaxBytesReader] stops the parser at
    the ceiling) and before the handler creates any file: the run has no
    side effect but possibly the read of the record (no file, no object,
    no record change). The answer is
    400, 401 or 404, or 500 "Database error" when the metadata read fails
    (that read comes before the body is parsed); a request that passes the
    checks made before the form is parsed (valid id, token and JWT, record
    found, caller is the owner) gets 400 "Error parsing form". *)
Theorem C8_oversized_body (env : Env) (w0 w1 : World) (r : Response) :
  uploadVideo env w0 = (r, w1) -> maxUploadBytes < req_form_bytes env ->
  fs w1 = fs w0 /\ s3 w1 = s3 w0 /\ db w1 = db w0 /\
  (forall e, In e (new_events w0 w1) -> exists id, e = EGetVideo id) /\
  (status r = StatusBadRequest \/ status r = StatusUnauthorized \/
   status r = StatusNotFound \/
   (status r = StatusInternalServerError /\ body r = BodyError "Database error" /\
    db_error env = true)) /\
  (forall videoID token userID v,
     req_videoID env = Some videoID -> req_token env = Some token ->
     validateJWT env token (cfg_jwtSecret env) = Some userID ->
     db_error env = false -> db w0 !! videoID = Some v -> UserID v = userID ->
     status r = StatusBadRequest /\ body r = BodyError "Error parsing form").
Proof.
  intros Hrun Hover. apply Z.ltb_lt in Hover.
  unfold_handler. rewrite Hover in Hrun.
  run_all; norm_events.
  all: split; [reflexivity |]; split; [reflexivity |]; split; [reflexivity |].
  all: split; [intros e He; repeat destruct He as [<- | He]; try contradiction;
               eexists; reflexivity |].
  all: split; [first [ left; reflexivity | right; left; reflexivity
             | right; right; left; reflexivity
             | right; right; right; repeat split; (reflexivity || assumption) ] |].
  all: intros ? ? ? ? Hid Htok Hjwt Hdb Hv Hown.
  all: first [ split; reflexivity
             | exfalso; congruence
             | exfalso; match goal with H : String.eqb _ _ = false |- _ =>
                                          apply String.eqb_neq in H end; congruence ].
Qed.

Lemma C8_witness :
  body (fst (uploadVideo (sample_env "user-1" (maxUploadBytes + 1) false RemuxOk true)
               sample_world)) = BodyError "Error parsing form".
Proof.
  destruct (C8_oversized_body (sample_env "user-1" (maxUploadBytes + 1) false RemuxOk true)
              sample_world
              (snd (uploadVideo (sample_env "user-1" (maxUploadBytes + 1) false RemuxOk true)
                      sample_world))
              (fst (uploadVideo (sample_env "user-1" (maxUploadBytes + 1) false RemuxOk true)
                      sample_world)))
    as (_ & _ & _ & _ & _ & Hform).
  - apply surjective_pairing.
  - vm_compute. reflexivity.
  - apply (Hform "vid-1" "tok" "user-1" sample_video); reflexivity.
Defined.

(** Counterexample to C8: a body over the ceiling while the metadata read
    fails gets 500, not a 4xx answer. *)
Lemma C8_counterexample :
  let '(r, w1) :=
    uploadVideo (sample_env "user-1" (maxUploadBytes + 1) true RemuxOk true) sample_world in
  status r = StatusInternalServerError /\ body r = BodyError "Database error".
Proof. vm_compute. split; reflexivity. Qed.

(** Claim C9: when the object is stored but the metadata update fails, the
    run answers 500 "Failed to update video", the record is unchanged, the
    stored object stays (the only change to S3 is that one put) and no
    update, nor any other S3 call, follows. *)
Theorem C9_update_failure_leaves_object (env : Env) (w0 w1 : World) (r : Response)
    (bucket key : string) :
  uploadVideo env w0 = (r, w1) -> update_ok env = false ->
  In (EPut bucket key) (new_events w0 w1) ->
  status r = StatusInternalServerError /\
  body r = BodyError "Failed to update video" /\
  db w1 = db w0 /\
  (exists c, s3 w1 = <[(bucket, key) := c]> (s3 w0)) /\
  (forall id, ~ In (EUpdate id) (new_events w0 w1)).
Proof.
  intros Hrun Hupd Hput.
  unfold_handler. run_all; norm_events.
  all: try (exfalso; intuition congruence).
  all: repeat match goal with H : _ \/ _ |- _ => destruct H as [H | H] end;
    try contradiction; try congruence.
  all: match goal with H : EPut _ _ = EPut _ _ |- _ => injection H as <- <- end.
  all: split; [reflexivity |]; split; [reflexivity |]; split; [reflexivity |].
  all: split; [eexists; reflexivity |].
  all: intros id; intuition congruence.
Qed.

Lemma C9_witness :
  db (snd (uploadVideo (sample_env "user-1" 1000 false RemuxOk false) sample_world))
  = db sample_world.
Proof.
  destruct (C9_update_failure_leaves_object (sample_env "user-1" 1000 false RemuxOk false)
              sample_world
              (snd (uploadVideo (sample_env "user-1" 1000 false RemuxOk false) sample_world))
              (fst (uploadVideo (sample_env "user-1" 1000 false RemuxOk false) sample_world))
              "tubely-bucket" (objectKey "landscape" sample_bytes))
    as (_ & _ & Hdb & _).
  - apply surjective_pairing.
  - reflexivity.
  - vm_compute. repeat first [left; reflexivity | right].
  - exact Hdb.
Defined.

(** Claim C10: in both thumbnail handlers that write to the assets
    directory, a run that reads the record has first created and
    completely written the file; the file holds the upload when the run
    ends, also when the caller is not the owner, in which case the record
    is not changed. *)
Theorem C10_thumbnail_written_before_ownership_check :
  file_written_before_record_read ThumbnailByID.run /\
  file_written_before_record_read ThumbnailRandom.run.
Proof. split; [exact thumbnail_by_id_order | exact thumbnail_random_order]. Qed.

Lemma C10_witness :
  let '(r, w1) := ThumbnailByID.run (sample_env "user-2" 1000 false RemuxOk true) sample_world in
  body r = BodyError "Unauthorized access" /\
  exists filename contents mt rest,
    req_file (sample_env "user-2" 1000 false RemuxOk true) "thumbnail" = Some (contents, mt) /\
    new_events sample_world w1 =
      (ECreate (join_path "assets" filename) :: EWrite (join_path "assets" filename)
         :: EGetVideo "vid-1" :: rest)%list /\
    fs w1 !! join_path "assets" filename = Some contents /\
    (body r = BodyError "Unauthorized access" -> db w1 = db sample_world /\ rest = []).
Proof.
  destruct (ThumbnailByID.run (sample_env "user-2" 1000 false RemuxOk true) sample_world)
    as [r w1] eqn:Hrun.
  assert (Hb : body r = BodyError "Unauthorized access").
  { vm_compute in Hrun. injection Hrun as <- _. reflexivity. }
  split; [exact Hb |].
  apply (proj1 C10_thumbnail_written_before_ownership_check _ _ _ _ "vid-1" Hrun).
  vm_compute in Hrun. injection Hrun as _ <-. vm_compute. repeat first [left; reflexivity | right].
Defined.

(* ================================================================== *)
(** ** Further properties of the handlers                               *)
(* ================================================================== *)

Lemma append_nonempty_neq (p s : string) : s <> "" -> p <> p ++ s.
Proof.
  intros Hs E. induction p as [|c p IH]; cbn in E.
  - exact (Hs (eq_sym E)).
  - injection E as E. exact (IH E).
Qed.

Lemma has_comma_app (a b : string) : has_comma (a ++ b) = has_comma a || has_comma b.
Proof. unfold has_comma. rewrite list_ascii_of_string_append, existsb_app. reflexivity. Qed.

Lemma url_char_not_comma (c : ascii) : url_char c = true -> Ascii.eqb ","%char c = false.
Proof.
  intros H. destruct (Ascii.eqb ","%char c) eqn:E; [| reflexivity].
  apply Ascii.eqb_eq in E. subst c. discriminate H.
Qed.

Lemma EncodeToString_no_comma (src : list Z) : has_comma (EncodeToString src) = false.
Proof.
  unfold has_comma, EncodeToString. rewrite list_ascii_of_string_of_list_ascii.
  induction (encode_raw_url_chars src) as [| c l Hc _ IH]; [reflexivity |].
  cbn [existsb]. rewrite url_char_not_comma by exact Hc. exact IH.
Qed.

Lemma https_url_no_comma (bucket region aspect : string) (randomBytes : list Z) :
  has_comma bucket = false -> has_comma region = false ->
  (aspect = "landscape" \/ aspect = "portrait" \/ aspect = "other") ->
  has_comma ("https://" ++ bucket ++ ".s3." ++ region ++ ".amazonaws.com/"
             ++ objectKey aspect randomBytes) = false.
Proof.
  intros Hb Hr Ha. unfold objectKey.
  rewrite !has_comma_app, Hb, Hr, EncodeToString_no_comma.
  destruct Ha as [-> | [-> | ->]]; reflexivity.
Qed.

Lemma cut_comma_none (s : string) : has_comma s = false -> cut_comma s = None.
Proof.
  unfold has_comma. induction s as [|c s IH]; intros H; [reflexivity |].
  cbn [list_ascii_of_string existsb] in H. apply orb_false_iff in H as [Hc H].
  rewrite cut_comma_cons, Ascii.eqb_sym, Hc, IH by exact H. reflexivity.
Qed.

Lemma url_char_not_slash (c : ascii) : url_char c = true -> c <> "/"%char.
Proof. intros H ->. discriminate H. Qed.

Lemma EncodeToString_no_slash (src : list Z) :
  ~ In "/"%char (list_ascii_of_string (EncodeToString src)).
Proof.
  unfold EncodeToString. rewrite list_ascii_of_string_of_list_ascii.
  intros Hin. pose proof (encode_raw_url_chars src) as H.
  rewrite List.Forall_forall in H. exact (url_char_not_slash _ (H _ Hin) eq_refl).
Qed.

(** Every run of the upload handler removes the staged upload; the remux
    output [<temp>.processing] is left behind only when ffmpeg failed after
    creating it, and then the answer is 500. (Both paths are fresh when
    the run starts.) *)
Lemma upload_temp_files (env : Env) (w0 w1 : World) (r : Response) (p : string) :
  uploadVideo env w0 = (r, w1) -> createTemp env = Some p ->
  fs w0 !! p = None -> fs w0 !! (p ++ ".processing") = None ->
  fs w1 !! p = None /\
  (fs w1 !! (p ++ ".processing") = None \/
   (ffmpeg env = RemuxFailed true /\ status r = StatusInternalServerError /\
    fs w1 !! (p ++ ".processing") = Some (faststart_partial env))).
Proof.
  intros Hrun Hcreate H0 H1.
  pose proof (append_nonempty_neq p ".processing" ltac:(discriminate)) as Hne.
  unfold_handler. rewrite Hcreate in Hrun.
  pose proof (not_eq_sym Hne) as Hne'.
  run_all; autorewrite with world in *.
  all: simplify_map_eq.
  all: try (split; [first [reflexivity | assumption] | left; first [reflexivity | assumption]]).
  all: try (split; [first [reflexivity | assumption] | right; auto]).
Qed.

Lemma upload_temp_files_witness :
  fs (snd (uploadVideo (sample_env "user-1" 1000 false (RemuxFailed true) true) sample_world))
    !! "/tmp/tubely-upload-1.mp4" = None.
Proof.
  destruct (upload_temp_files (sample_env "user-1" 1000 false (RemuxFailed true) true)
              sample_world
              (snd (uploadVideo (sample_env "user-1" 1000 false (RemuxFailed true) true)
                      sample_world))
              (fst (uploadVideo (sample_env "user-1" 1000 false (RemuxFailed true) true)
                      sample_world))
              "/tmp/tubely-upload-1.mp4") as [Hp _].
  - apply surjective_pairing.
  - reflexivity.
  - vm_compute. reflexivity.
  - vm_compute. reflexivity.
  - exact Hp.
Defined.

(** A successful upload leaves the local disk as it was, adds exactly one
    object, under [<aspect>/<base64 of the random bytes>.mp4], holding what
    ffmpeg's faststart remux wrote for the uploaded bytes, and stores the record with its https URL, which is
    also the answer. *)
Lemma upload_success_state (env : Env) (w0 w1 : World) (r : Response) (p : string) :
  uploadVideo env w0 = (r, w1) -> status r = StatusOK -> createTemp env = Some p ->
  fs w0 !! p = None -> fs w0 !! (p ++ ".processing") = None ->
  exists videoID v contents contentType aspect randomBytes,
    req_videoID env = Some videoID /\ db w0 !! videoID = Some v /\
    req_file env "video" = Some (contents, contentType) /\
    getVideoAspectRatio (ffprobe env) = inl aspect /\ randRead env = Some randomBytes /\
    (let key := objectKey aspect randomBytes in
     let v' := with_video_url v (Some ("https://" ++ cfg_s3Bucket env ++ ".s3." ++
                 cfg_s3Region env ++ ".amazonaws.com/" ++ key)) in
     fs w1 = fs w0 /\
     s3 w1 = <[(cfg_s3Bucket env, key) := faststart_output env contents]> (s3 w0) /\
     db w1 = <[ID v := v']> (db w0) /\
     body r = BodyVideo v').
Proof.
  intros Hrun Hok Hcreate H0 H1.
  pose proof (append_nonempty_neq p ".processing" ltac:(discriminate)) as Hne.
  pose proof (not_eq_sym Hne) as Hne'.
  unfold_handler. rewrite Hcreate in Hrun.
  run_all; autorewrite with world in *; try discriminate.
  eexists _, _, _, _, _, _.
  do 5 (split; [reflexivity || eassumption |]). cbn zeta.
  rewrite insert_insert_eq, lookup_insert_eq, lookup_insert_eq. cbn [default].
  split; [| split; [reflexivity | split; reflexivity]].
  rewrite delete_insert_eq, delete_insert_ne by exact Hne'.
  rewrite (delete_id _ _ H1), delete_insert_eq. apply delete_id. exact H0.
Qed.

Lemma upload_success_state_witness :
  fs (snd (uploadVideo (sample_env "user-1" 1000 false RemuxOk true) sample_world))
    = fs sample_world.
Proof.
  destruct (upload_success_state (sample_env "user-1" 1000 false RemuxOk true)
              sample_world
              (snd (uploadVideo (sample_env "user-1" 1000 false RemuxOk true) sample_world))
              (fst (uploadVideo (sample_env "user-1" 1000 false RemuxOk true) sample_world))
              "/tmp/tubely-upload-1.mp4")
    as (videoID & v & contents & contentType & aspect & randomBytes & _ & _ & _ & _ & _ & Hfs & _).
  - apply surjective_pairing.
  - vm_compute. reflexivity.
  - reflexivity.
  - vm_compute. reflexivity.
  - vm_compute. reflexivity.
  - exact Hfs.
Defined.

(** Every 4xx answer of the upload handler comes before any side effect:
    no file, object or record is changed, and the only event is possibly
    the read of the record. *)
Lemma upload_client_error_no_effect (env : Env) (w0 w1 : World) (r : Response) :
  uploadVideo env w0 = (r, w1) -> 400 <= status r < 500 ->
  fs w1 = fs w0 /\ s3 w1 = s3 w0 /\ db w1 = db w0 /\
  (forall e, In e (new_events w0 w1) -> exists id, e = EGetVideo id).
Proof.
  intros Hrun Hst.
  unfold_handler.
  run_all; norm_events; cbn in Hst;
    unfold StatusInternalServerError, StatusOK in Hst; try lia.
  all: split; [reflexivity |]; split; [reflexivity |]; split; [reflexivity |].
  all: intros e He; repeat destruct He as [<- | He]; try contradiction; eexists; reflexivity.
Qed.

Lemma upload_client_error_no_effect_witness :
  db (snd (uploadVideo (sample_env "user-2" 1000 false RemuxOk true) sample_world))
    = db sample_world.
Proof.
  destruct (upload_client_error_no_effect (sample_env "user-2" 1000 false RemuxOk true)
              sample_world
              (snd (uploadVideo (sample_env "user-2" 1000 false RemuxOk true) sample_world))
              (fst (uploadVideo (sample_env "user-2" 1000 false RemuxOk true) sample_world)))
    as (_ & _ & Hdb & _).
  - apply surjective_pairing.
  - rewrite (eq_refl : status (fst (uploadVideo (sample_env "user-2" 1000 false RemuxOk true)
                                     sample_world)) = 401).
    lia.
  - exact Hdb.
Defined.

(** A run that does not answer 200 leaves the metadata store unchanged;
    it changes S3 only when it answers "Failed to update video". *)
Lemma upload_failure_keeps_db (env : Env) (w0 w1 : World) (r : Response) :
  uploadVideo env w0 = (r, w1) -> status r <> StatusOK ->
  db w1 = db w0 /\ (s3 w1 = s3 w0 \/ body r = BodyError "Failed to update video").
Proof.
  intros Hrun Hst.
  unfold_handler.
  run_all; autorewrite with world in *; cbn in Hst; try congruence.
  all: split; [reflexivity |].
  all: first [left; reflexivity | right; reflexivity].
Qed.

Lemma upload_failure_keeps_db_witness :
  db (snd (uploadVideo (sample_env "user-1" 1000 false RemuxOk false) sample_world))
    = db sample_world.
Proof.
  destruct (upload_failure_keeps_db (sample_env "user-1" 1000 false RemuxOk false)
              sample_world
              (snd (uploadVideo (sample_env "user-1" 1000 false RemuxOk false) sample_world))
              (fst (uploadVideo (sample_env "user-1" 1000 false RemuxOk false) sample_world)))
    as [Hdb _].
  - apply surjective_pairing.
  - vm_compute. intros H; discriminate H.
  - exact Hdb.
Defined.

(** The unpadded URL-safe base64 text of [n] bytes has [(4n+2)/3]
    characters. *)
Lemma EncodeToString_length (src : list Z) :
  String.length (EncodeToString src) = ((4 * length src + 2) / 3)%nat.
Proof.
  unfold EncodeToString. rewrite length_string_of_list_ascii.
  remember (length src) as n eqn:Hn.
  revert src Hn. induction n as [n IH] using lt_wf_ind. intros src Hn.
  destruct src as [|b0 [|b1 [|b2 rest]]]; cbn [encode_raw_url length] in *; subst n;
    try reflexivity.
  rewrite (IH (length rest)) by (reflexivity || lia).
  replace (4 * S (S (S (length rest))) + 2)%nat with ((4 * length rest + 2) + 4 * 3)%nat by lia.
  rewrite Nat.div_add by lia. lia.
Qed.

(** A record stored by the https-URL upload handler cannot be signed by
    [dbVideoToSignedVideo]: its URL has no comma (for bucket and region
    names without one), so the signer answers "invalid video URL format"
    and returns the record unchanged. *)
Lemma https_record_not_signable (env : Env) (w0 w1 : World) (r : Response) (v : Video)
    (presign : string -> string -> Z -> option string) :
  uploadVideo env w0 = (r, w1) -> body r = BodyVideo v ->
  has_comma (cfg_s3Bucket env) = false -> has_comma (cfg_s3Region env) = false ->
  exists u, db w1 !! ID v = Some v /\ VideoURL v = Some u /\
    dbVideoToSignedVideo presign v = (v, Some ("invalid video URL format: " ++ u)).
Proof.
  intros Hrun Hbody Hb Hr.
  unfold_handler.
  run_all; autorewrite with world in *; try discriminate.
  injection Hbody as <-.
  eexists. split; [simplify_map_eq; reflexivity |]. split; [reflexivity |].
  unfold dbVideoToSignedVideo, SplitN2. cbn [VideoURL with_video_url].
  rewrite cut_comma_none
    by (apply https_url_no_comma; [assumption | assumption | eapply getVideoAspectRatio_class; eassumption]).
  destruct (String.eqb _ "") eqn:E; [| reflexivity].
  apply String.eqb_eq in E. discriminate E.
Qed.

Lemma https_record_not_signable_witness :
  exists u, snd (dbVideoToSignedVideo sample_presign
                   (uploaded_video (fst (uploadVideo sample_ok_env sample_world)))) =
            Some ("invalid video URL format: " ++ u).
Proof.
  destruct (https_record_not_signable sample_ok_env sample_world
              (snd (uploadVideo sample_ok_env sample_world))
              (fst (uploadVideo sample_ok_env sample_world))
              (uploaded_video (fst (uploadVideo sample_ok_env sample_world))) sample_presign)
    as (u & _ & _ & Hs).
  - apply surjective_pairing.
  - vm_compute. reflexivity.
  - vm_compute. reflexivity.
  - vm_compute. reflexivity.
  - exists u. rewrite Hs. reflexivity.
Defined.

(** The flat-key upload handler of part_003 leaves the local disk as it
    found it on every run. *)
Lemma flat_no_files_left (env : Env) (w0 w1 : World) (r : Response) :
  VideoFlat.run env w0 = (r, w1) ->
  (forall p, createTemp env = Some p -> fs w0 !! p = None) ->
  fs w1 = fs w0.
Proof.
  intros Hrun Hfresh.
  unfold VideoFlat.run, VideoFlat.handlerUploadVideo in Hrun. unfold_handler.
  run_all; autorewrite with world in *; try reflexivity.
  all: specialize (Hfresh _ eq_refl).
  all: rewrite ?insert_insert_eq, delete_insert_eq; apply delete_id; exact Hfresh.
Qed.

Lemma flat_no_files_left_witness :
  fs (snd (VideoFlat.run sample_ok_env sample_world)) = fs sample_world.
Proof.
  apply (flat_no_files_left sample_ok_env sample_world
           (snd (VideoFlat.run sample_ok_env sample_world))
           (fst (VideoFlat.run sample_ok_env sample_world))).
  - apply surjective_pairing.
  - intros p Hp. injection Hp as <-. vm_compute. reflexivity.
Defined.

(** A successful run of the flat-key handler stores the uploaded bytes
    under [<base64 of the random bytes>.mp4], stores the record with its
    https URL, answers with that record, and never runs an external tool. *)
Lemma flat_success_state (env : Env) (w0 w1 : World) (r : Response) :
  VideoFlat.run env w0 = (r, w1) -> status r = StatusOK ->
  exists videoID v contents contentType randomBytes,
    req_videoID env = Some videoID /\ db w0 !! videoID = Some v /\
    req_file env "video" = Some (contents, contentType) /\ randRead env = Some randomBytes /\
    (forall tool args, ~ In (EExec tool args) (new_events w0 w1)) /\
    (let key := EncodeToString randomBytes ++ ".mp4" in
     let v' := with_video_url v (Some ("https://" ++ cfg_s3Bucket env ++ ".s3." ++
                 cfg_s3Region env ++ ".amazonaws.com/" ++ key)) in
     s3 w1 = <[(cfg_s3Bucket env, key) := contents]> (s3 w0) /\
     db w1 = <[ID v := v']> (db w0) /\
     body r = BodyVideo v').
Proof.
  intros Hrun Hok.
  unfold VideoFlat.run, VideoFlat.handlerUploadVideo in Hrun. unfold_handler.
  run_all; norm_events; try discriminate.
  eexists _, _, _, _, _.
  do 4 (split; [reflexivity || eassumption |]).
  split; [intros tool args H; repeat destruct H as [H | H]; congruence |].
  cbn zeta. rewrite insert_insert_eq, lookup_insert_eq. cbn [default].
  repeat split; reflexivity.
Qed.

Lemma flat_success_state_witness :
  exists randomBytes contents,
    s3 (snd (VideoFlat.run sample_ok_env sample_world)) =
    <[("tubely-bucket", EncodeToString randomBytes ++ ".mp4") := contents]> (s3 sample_world).
Proof.
  destruct (flat_success_state sample_ok_env sample_world
              (snd (VideoFlat.run sample_ok_env sample_world))
              (fst (VideoFlat.run sample_ok_env sample_world)))
    as (videoID & v & contents & contentType & randomBytes & _ & _ & _ & _ & _ & Hs3 & _).
  - apply surjective_pairing.
  - vm_compute. reflexivity.
  - exists randomBytes, contents. exact Hs3.
Defined.

(** A successful run of the signed-URL handler stores ffmpeg's faststart
    remux of the uploaded bytes under [<aspect>/<base64>.mp4], stores the locator "bucket,key" in the
    record, and answers with the record carrying the URL presigned for
    exactly that bucket and key for 15 minutes. *)
Lemma signed_success_state (env : Env) (presign : string -> string -> Z -> option string)
    (w0 w1 : World) (r : Response) :
  VideoSigned.run env presign w0 = (r, w1) -> status r = StatusOK ->
  has_comma (cfg_s3Bucket env) = false ->
  exists videoID v contents contentType aspect randomBytes url,
    req_videoID env = Some videoID /\ db w0 !! videoID = Some v /\
    req_file env "video" = Some (contents, contentType) /\
    getVideoAspectRatio (ffprobe env) = inl aspect /\ randRead env = Some randomBytes /\
    (let key := objectKey aspect randomBytes in
     s3 w1 = <[(cfg_s3Bucket env, key) := faststart_output env contents]> (s3 w0) /\
     db w1 = <[ID v := with_video_url v (Some (locator (cfg_s3Bucket env) key))]> (db w0) /\
     presign (cfg_s3Bucket env) key presignExpiry = Some url /\
     body r = BodyVideo (with_video_url v (Some url))).
Proof.
  intros Hrun Hok Hb.
  unfold VideoSigned.run, VideoSigned.handlerUploadVideo in Hrun. unfold_handler.
  unfold dbVideoToSignedVideo, SplitN2 in Hrun.
  run_all; autorewrite with world in *; try discriminate.
  all: rewrite ?locator_nonempty, ?cut_comma_locator in * by exact Hb; try discriminate.
  match goal with H : Some (_, _) = Some (_, _) |- _ => injection H as <- <- end.
  eexists _, _, _, _, _, _, _. do 5 (split; [reflexivity || eassumption |]). cbn zeta.
  rewrite lookup_insert_eq. cbn [default]. rewrite insert_insert_eq, lookup_insert_eq.
  cbn [default].
  split; [reflexivity | split; [reflexivity | split; [eassumption | reflexivity]]].
Qed.

Lemma signed_success_state_witness :
  exists url, body (fst (VideoSigned.run sample_ok_env sample_presign sample_world)) =
              BodyVideo (with_video_url sample_video (Some url)).
Proof.
  destruct (signed_success_state sample_ok_env sample_presign sample_world
              (snd (VideoSigned.run sample_ok_env sample_presign sample_world))
              (fst (VideoSigned.run sample_ok_env sample_presign sample_world)))
    as (videoID & v & contents & contentType & aspect & randomBytes & url &
        Hid & Hv & _ & _ & _ & _ & _ & _ & Hbody).
  - apply surjective_pairing.
  - vm_compute. reflexivity.
  - vm_compute. reflexivity.
  - exists url. rewrite Hbody. injection Hid as <-. injection Hv as <-. reflexivity.
Defined.

(** When presigning fails, the signed-URL handler answers 500 "Failed to
    generate URL" although the object is stored and the record already
    holds the locator. *)
Lemma signed_url_failure_after_commit (env : Env) (presign : string -> string -> Z -> option string)
    (w0 w1 : World) (r : Response) :
  VideoSigned.run env presign w0 = (r, w1) -> body r = BodyError "Failed to generate URL" ->
  has_comma (cfg_s3Bucket env) = false ->
  exists videoID v key contents,
    req_videoID env = Some videoID /\ db w0 !! videoID = Some v /\
    presign (cfg_s3Bucket env) key presignExpiry = None /\
    status r = StatusInternalServerError /\
    s3 w1 = <[(cfg_s3Bucket env, key) := contents]> (s3 w0) /\
    db w1 = <[ID v := with_video_url v (Some (locator (cfg_s3Bucket env) key))]> (db w0).
Proof.
  intros Hrun Hbody Hb.
  unfold VideoSigned.run, VideoSigned.handlerUploadVideo in Hrun. unfold_handler.
  unfold dbVideoToSignedVideo, SplitN2 in Hrun.
  run_all; autorewrite with world in *; try discriminate.
  all: rewrite ?locator_nonempty, ?cut_comma_locator in * by exact Hb; try discriminate.
  match goal with H : Some (_, _) = Some (_, _) |- _ => injection H as <- <- end.
  eexists _, _, _, _.
  split; [reflexivity |]. split; [eassumption |]. split; [eassumption |].
  split; [reflexivity |]. split; reflexivity.
Qed.

Lemma signed_url_failure_after_commit_witness :
  exists key, db (snd (VideoSigned.run sample_ok_env (fun _ _ _ => None) sample_world)) =
    <[ "vid-1" := with_video_url sample_video (Some (locator "tubely-bucket" key)) ]>
      (db sample_world).
Proof.
  destruct (signed_url_failure_after_commit sample_ok_env (fun _ _ _ => None) sample_world
              (snd (VideoSigned.run sample_ok_env (fun _ _ _ => None) sample_world))
              (fst (VideoSigned.run sample_ok_env (fun _ _ _ => None) sample_world)))
    as (videoID & v & key & contents & Hid & Hv & _ & _ & _ & Hdb).
  - apply surjective_pairing.
  - vm_compute. reflexivity.
  - vm_compute. reflexivity.
  - exists key. rewrite Hdb. injection Hid as <-. injection Hv as <-. reflexivity.
Defined.

(** [dbVideoToSignedVideo] changes no field but [VideoURL]; when it
    returns an error it returns the record unchanged, and errors happen
    only for a non-empty URL. *)
Lemma dbVideoToSignedVideo_fields (presign : string -> string -> Z -> option string)
    (video v' : Video) (err : option string) :
  dbVideoToSignedVideo presign video = (v', err) ->
  ID v' = ID video /\ UserID v' = UserID video /\ ThumbnailURL v' = ThumbnailURL video /\
  (err <> None -> v' = video /\ exists u, VideoURL video = Some u /\ u <> "").
Proof.
  unfold dbVideoToSignedVideo, SplitN2.
  destruct (VideoURL video) as [u |] eqn:Hu;
    [destruct (String.eqb u "") eqn:He;
     [| destruct (cut_comma u) as [[b k] |];
        [destruct (presign b k presignExpiry) |]] |];
    intros E; injection E as <- <-;
    (split; [reflexivity |]); (split; [reflexivity |]); (split; [reflexivity |]);
    intros Hn; try (exfalso; exact (Hn eq_refl)).
  all: apply String.eqb_neq in He; eauto.
Qed.

Lemma dbVideoToSignedVideo_fields_witness :
  ID (fst (dbVideoToSignedVideo sample_presign
             (with_video_url sample_video (Some "tubely-bucket,landscape/a.mp4")))) = "vid-1".
Proof.
  destruct (dbVideoToSignedVideo_fields sample_presign
              (with_video_url sample_video (Some "tubely-bucket,landscape/a.mp4"))
              (fst (dbVideoToSignedVideo sample_presign
                      (with_video_url sample_video (Some "tubely-bucket,landscape/a.mp4"))))
              (snd (dbVideoToSignedVideo sample_presign
                      (with_video_url sample_video (Some "tubely-bucket,landscape/a.mp4")))))
    as [Hid _].
  - apply surjective_pairing.
  - exact Hid.
Defined.

(** The in-memory thumbnail handler changes [videoThumbnails] only for
    the owner of an existing record, and then only at the video's id,
    with the uploaded data and its raw Content-Type. *)
Lemma inmem_store_owner_only (env : Env) (readAll_ok : bool) (w0 w1 : World)
    (t0 t1 : gmap string ThumbnailInMemory.thumbnail) (r : Response) :
  ThumbnailInMemory.run env readAll_ok w0 t0 = (r, w1, t1) ->
  t1 = t0 \/
  exists videoID token v data mediaType,
    req_videoID env = Some videoID /\ req_token env = Some token /\
    db w0 !! videoID = Some v /\
    validateJWT env token (cfg_jwtSecret env) = Some (UserID v) /\
    req_file env "thumbnail" = Some (data, mediaType) /\
    t1 = <[videoID := ThumbnailInMemory.mk_thumbnail data mediaType]> t0.
Proof.
  intros Hrun. unfold_inmem.
  run_all; subst; try (left; reflexivity).
  all: right; match goal with H : (UserID _ =? _)%string = true |- _ =>
                                apply String.eqb_eq in H; subst end.
  all: eexists _, _, _, _, _; repeat split; (reflexivity || eassumption).
Qed.

Lemma inmem_store_owner_only_witness :
  let t1 := snd (ThumbnailInMemory.run (sample_env "user-2" 1000 false RemuxOk true) true
                   sample_world ∅) in
  t1 = ∅ \/ exists videoID data mediaType,
              t1 = <[videoID := ThumbnailInMemory.mk_thumbnail data mediaType]> ∅.
Proof.
  destruct (inmem_store_owner_only (sample_env "user-2" 1000 false RemuxOk true) true
              sample_world
              (snd (fst (ThumbnailInMemory.run (sample_env "user-2" 1000 false RemuxOk true) true
                           sample_world ∅)))
              ∅
              (snd (ThumbnailInMemory.run (sample_env "user-2" 1000 false RemuxOk true) true
                      sample_world ∅))
              (fst (fst (ThumbnailInMemory.run (sample_env "user-2" 1000 false RemuxOk true) true
                           sample_world ∅))))
    as [H | (videoID & token & v & data & mediaType & _ & _ & _ & _ & _ & H)].
  - vm_compute. reflexivity.
  - left. exact H.
  - right. eauto.
Defined.

(** The in-memory thumbnail handler never touches the local disk or S3,
    and changes the metadata store only on a 200 answer. *)
Lemma inmem_no_disk_effect (env : Env) (readAll_ok : bool) (w0 w1 : World)
    (t0 t1 : gmap string ThumbnailInMemory.thumbnail) (r : Response) :
  ThumbnailInMemory.run env readAll_ok w0 t0 = (r, w1, t1) ->
  fs w1 = fs w0 /\ s3 w1 = s3 w0 /\ (status r <> StatusOK -> db w1 = db w0).
Proof.
  intros Hrun. unfold_inmem.
  run_all; subst; autorewrite with world; cbn;
    (split; [reflexivity |]); (split; [reflexivity |]); intros Hst; try reflexivity.
  exfalso; apply Hst; reflexivity.
Qed.

Lemma inmem_no_disk_effect_witness :
  s3 (snd (fst (ThumbnailInMemory.run sample_ok_env true sample_world ∅))) = s3 sample_world.
Proof.
  destruct (inmem_no_disk_effect sample_ok_env true sample_world
              (snd (fst (ThumbnailInMemory.run sample_ok_env true sample_world ∅))) ∅
              (snd (ThumbnailInMemory.run sample_ok_env true sample_world ∅))
              (fst (fst (ThumbnailInMemory.run sample_ok_env true sample_world ∅))))
    as (_ & Hs3 & _).
  - vm_compute. reflexivity.
  - exact Hs3.
Defined.

(** When the metadata update fails, the in-memory thumbnail handler
    answers 500 with the record unchanged, yet the new thumbnail is
    already in [videoThumbnails]. *)
Lemma inmem_update_failure (env : Env) (readAll_ok : bool) (w0 w1 : World)
    (t0 t1 : gmap string ThumbnailInMemory.thumbnail) (r : Response) :
  ThumbnailInMemory.run env readAll_ok w0 t0 = (r, w1, t1) ->
  body r = BodyError "Failed to update video" ->
  db w1 = db w0 /\
  exists videoID data mediaType,
    req_videoID env = Some videoID /\ req_file env "thumbnail" = Some (data, mediaType) /\
    t1 = <[videoID := ThumbnailInMemory.mk_thumbnail data mediaType]> t0.
Proof.
  intros Hrun Hbody. unfold_inmem.
  run_all; subst; try discriminate.
  split; [reflexivity |]. eexists _, _, _; repeat split; (reflexivity || eassumption).
Qed.

Lemma inmem_update_failure_witness :
  db (snd (fst (ThumbnailInMemory.run (sample_env "user-1" 1000 false RemuxOk false) true
                  sample_world ∅))) = db sample_world.
Proof.
  destruct (inmem_update_failure (sample_env "user-1" 1000 false RemuxOk false) true
              sample_world
              (snd (fst (ThumbnailInMemory.run (sample_env "user-1" 1000 false RemuxOk false) true
                           sample_world ∅))) ∅
              (snd (ThumbnailInMemory.run (sample_env "user-1" 1000 false RemuxOk false) true
                      sample_world ∅))
              (fst (fst (ThumbnailInMemory.run (sample_env "user-1" 1000 false RemuxOk false) true
                           sample_world ∅))))
    as [Hdb _].
  - vm_compute. reflexivity.
  - vm_compute. reflexivity.
  - exact Hdb.
Defined.

(** After a successful in-memory upload, [videoThumbnails] holds the
    uploaded data at the video's id, and the stored and returned record
    points at [/api/thumbnails/<that id>]. *)
Lemma inmem_success_state (env : Env) (readAll_ok : bool) (w0 w1 : World)
    (t0 t1 : gmap string ThumbnailInMemory.thumbnail) (r : Response) :
  ThumbnailInMemory.run env readAll_ok w0 t0 = (r, w1, t1) -> status r = StatusOK ->
  exists videoID v data mediaType,
    req_videoID env = Some videoID /\ db w0 !! videoID = Some v /\
    req_file env "thumbnail" = Some (data, mediaType) /\
    t1 !! videoID = Some (ThumbnailInMemory.mk_thumbnail data mediaType) /\
    (let v' := with_thumbnail_url v
                 (Some ("http://localhost:" ++ cfg_port env ++ "/api/thumbnails/" ++ videoID)) in
     db w1 = <[ID v := v']> (db w0) /\ body r = BodyVideo v').
Proof.
  intros Hrun Hok. unfold_inmem.
  run_all; subst; try discriminate.
  eexists _, _, _, _. do 3 (split; [reflexivity || eassumption |]).
  split; [apply lookup_insert_eq |]. split; reflexivity.
Qed.

Lemma inmem_success_state_witness :
  snd (ThumbnailInMemory.run sample_ok_env true sample_world ∅) !! "vid-1" =
    Some (ThumbnailInMemory.mk_thumbnail "PNGDATA" "image/png").
Proof.
  destruct (inmem_success_state sample_ok_env true sample_world
              (snd (fst (ThumbnailInMemory.run sample_ok_env true sample_world ∅))) ∅
              (snd (ThumbnailInMemory.run sample_ok_env true sample_world ∅))
              (fst (fst (ThumbnailInMemory.run sample_ok_env true sample_world ∅))))
    as (videoID & v & data & mediaType & Hid & _ & Hfile & Ht & _).
  - vm_compute. reflexivity.
  - vm_compute. reflexivity.
  - injection Hid as <-. injection Hfile as <- <-. exact Ht.
Defined.

(** The id-named thumbnail handler answers 400 and 415 before any side
    effect: the world is unchanged. *)
Lemma thumb_byid_early_reject (env : Env) (w0 w1 : World) (r : Response) :
  ThumbnailByID.run env w0 = (r, w1) ->
  status r = StatusBadRequest \/ status r = StatusUnsupportedMediaType -> w1 = w0.
Proof.
  intros Hrun Hst. unfold ThumbnailByID.run, ThumbnailByID.handlerUploadThumbnail,
    thumbnailCommit, createStep in Hrun. unfold_handler.
  run_all; try reflexivity; cbn in Hst; destruct Hst as [Hst | Hst]; discriminate Hst.
Qed.

Lemma thumb_byid_early_reject_witness :
  snd (ThumbnailByID.run text_env sample_world) = sample_world.
Proof.
  apply (thumb_byid_early_reject text_env sample_world
           (snd (ThumbnailByID.run text_env sample_world))
           (fst (ThumbnailByID.run text_env sample_world))).
  - apply surjective_pairing.
  - right. vm_compute. reflexivity.
Defined.

(** The random-named thumbnail handler answers 400 and 415 before any
    side effect: the world is unchanged. *)
Lemma thumb_random_early_reject (env : Env) (w0 w1 : World) (r : Response) :
  ThumbnailRandom.run env w0 = (r, w1) ->
  status r = StatusBadRequest \/ status r = StatusUnsupportedMediaType -> w1 = w0.
Proof.
  intros Hrun Hst. unfold ThumbnailRandom.run, ThumbnailRandom.handlerUploadThumbnail,
    thumbnailCommit, createStep in Hrun. unfold_handler.
  run_all; try reflexivity; cbn in Hst; destruct Hst as [Hst | Hst]; discriminate Hst.
Qed.

Lemma thumb_random_early_reject_witness :
  snd (ThumbnailRandom.run text_env sample_world) = sample_world.
Proof.
  apply (thumb_random_early_reject text_env sample_world
           (snd (ThumbnailRandom.run text_env sample_world))
           (fst (ThumbnailRandom.run text_env sample_world))).
  - apply surjective_pairing.
  - right. vm_compute. reflexivity.
Defined.

(** A successful run of the id-named thumbnail handler writes the upload to
    [<assets>/<id><ext>], with [ext] from [getExtensionFromMIME], and the
    stored and returned record points at [/assets/<id><ext>]. *)
Lemma thumb_byid_success_state (env : Env) (w0 w1 : World) (r : Response) :
  ThumbnailByID.run env w0 = (r, w1) -> status r = StatusOK ->
  exists videoID v contents mediaType ext,
    req_videoID env = Some videoID /\ db w0 !! videoID = Some v /\
    req_file env "thumbnail" = Some (contents, mediaType) /\
    getExtensionFromMIME mediaType = Some ext /\
    fs w1 = <[join_path (cfg_assetsRoot env) (videoID ++ ext) := contents]> (fs w0) /\
    (let v' := with_thumbnail_url v
                 (Some ("http://localhost:" ++ cfg_port env ++ "/assets/" ++ videoID ++ ext)) in
     db w1 = <[ID v := v']> (db w0) /\ body r = BodyVideo v').
Proof.
  intros Hrun Hok. unfold ThumbnailByID.run, ThumbnailByID.handlerUploadThumbnail,
    thumbnailCommit, createStep in Hrun. unfold_handler.
  run_all; autorewrite with world in *; try discriminate.
  eexists _, _, _, _, _. do 4 (split; [reflexivity || eassumption |]).
  split; [apply insert_insert_eq |]. split; reflexivity.
Qed.

Lemma thumb_byid_success_state_witness :
  fs (snd (ThumbnailByID.run sample_ok_env sample_world)) !! "assets/vid-1.png" = Some "PNGDATA".
Proof.
  destruct (thumb_byid_success_state sample_ok_env sample_world
              (snd (ThumbnailByID.run sample_ok_env sample_world))
              (fst (ThumbnailByID.run sample_ok_env sample_world)))
    as (videoID & v & contents & mediaType & ext & Hid & _ & Hfile & Hext & Hfs & _).
  - apply surjective_pairing.
  - vm_compute. reflexivity.
  - rewrite Hfs. injection Hid as <-. injection Hfile as <- <-. injection Hext as <-.
    apply lookup_insert_eq.
Defined.

(** Every file the random-named thumbnail handler creates is
    [<assets>/<base64 of the random bytes><ext>] with [ext] ".jpg" or
    ".png"; the file name holds no "/", so the file stays in the assets
    directory. *)
Lemma thumb_random_file_name (env : Env) (w0 w1 : World) (r : Response) (p : string) :
  ThumbnailRandom.run env w0 = (r, w1) -> In (ECreate p) (new_events w0 w1) ->
  exists randomBytes ext,
    randRead env = Some randomBytes /\ (ext = ".jpg" \/ ext = ".png") /\
    p = join_path (cfg_assetsRoot env) (EncodeToString randomBytes ++ ext) /\
    ~ In "/"%char (list_ascii_of_string (EncodeToString randomBytes ++ ext)).
Proof.
  intros Hrun Hin. unfold ThumbnailRandom.run, ThumbnailRandom.handlerUploadThumbnail,
    thumbnailCommit, createStep in Hrun. unfold_handler.
  run_all; norm_events; repeat destruct Hin as [Hin | Hin]; try discriminate Hin;
    try contradiction.
  all: try discriminate.
  all: injection Hin as Hp; subst p.
  all: eexists _, _; split; [reflexivity |]; split; [| split; [reflexivity |]].
  all: try (left; reflexivity); try (right; reflexivity).
  all: rewrite list_ascii_of_string_append; intros Hs; apply in_app_or in Hs as [Hs | Hs];
         [exact (EncodeToString_no_slash _ Hs) |].
  all: cbn in Hs; repeat destruct Hs as [Hs | Hs]; discriminate || contradiction.
Qed.

Lemma thumb_random_file_name_witness :
  exists randomBytes,
    In (ECreate ("assets/" ++ EncodeToString randomBytes ++ ".png"))
       (new_events sample_world (snd (ThumbnailRandom.run sample_ok_env sample_world))).
Proof.
  destruct (thumb_random_file_name sample_ok_env sample_world
              (snd (ThumbnailRandom.run sample_ok_env sample_world))
              (fst (ThumbnailRandom.run sample_ok_env sample_world))
              ("assets/" ++ EncodeToString sample_bytes ++ ".png"))
    as (randomBytes & ext & Hr & _ & _ & _).
  - apply surjective_pairing.
  - vm_compute. left. reflexivity.
  - injection Hr as <-. exists sample_bytes. vm_compute. left. reflexivity.
Defined.

(** A successful run of the random-named thumbnail handler writes the
    upload to [<assets>/<base64><ext>] and the stored and returned record
    points at [/assets/<base64><ext>]. *)
Lemma thumb_random_success_state (env : Env) (w0 w1 : World) (r : Response) :
  ThumbnailRandom.run env w0 = (r, w1) -> status r = StatusOK ->
  exists videoID v contents mediaType randomBytes ext,
    req_videoID env = Some videoID /\ db w0 !! videoID = Some v /\
    req_file env "thumbnail" = Some (contents, mediaType) /\
    randRead env = Some randomBytes /\ (ext = ".jpg" \/ ext = ".png") /\
    (let filename := EncodeToString randomBytes ++ ext in
     let v' := with_thumbnail_url v
                 (Some ("http://localhost:" ++ cfg_port env ++ "/assets/" ++ filename)) in
     fs w1 = <[join_path (cfg_assetsRoot env) filename := contents]> (fs w0) /\
     db w1 = <[ID v := v']> (db w0) /\ body r = BodyVideo v').
Proof.
  intros Hrun Hok. unfold ThumbnailRandom.run, ThumbnailRandom.handlerUploadThumbnail,
    thumbnailCommit, createStep in Hrun. unfold_handler.
  run_all; autorewrite with world in *; try discriminate.
  all: eexists _, _, _, _, _, _; do 4 (split; [reflexivity || eassumption |]).
  all: split; [| cbn zeta; split; [apply insert_insert_eq | split; reflexivity]].
  all: (left; reflexivity) || (right; reflexivity).
Qed.

Lemma thumb_random_success_state_witness :
  exists randomBytes ext,
    fs (snd (ThumbnailRandom.run sample_ok_env sample_world)) !!
      join_path "assets" (EncodeToString randomBytes ++ ext) = Some "PNGDATA".
Proof.
  destruct (thumb_random_success_state sample_ok_env sample_world
              (snd (ThumbnailRandom.run sample_ok_env sample_world))
              (fst (ThumbnailRandom.run sample_ok_env sample_world)))
    as (videoID & v & contents & mediaType & randomBytes & ext & _ & _ & Hfile & _ & _ & Hfs & _).
  - apply surjective_pairing.
  - vm_compute. reflexivity.
  - exists randomBytes, ext. rewrite Hfs. injection Hfile as <- <-. apply lookup_insert_eq.
Defined.
